(** * Stream quality scheduling and scoring engine

    A shallow embedding of [backend/stream_checker_service.py] (and of the
    row score of [backend/dispatcharr-stream-sorter.py]) together with the
    properties stated about it.

    Conventions of the embedding.
    - A Python [dict] whose iteration order is observable (the tracker's
      ['channels'] mapping) is an association list with the behaviour of
      [dict]: assignment to an existing key keeps its position, a new key
      goes to the end.
    - Tracker keys are [str(channel_id)] of an integer id and are
      turned back with [int(...)]; the key is modelled by the integer.
    - A per-channel tracker record is a [dict] with optional keys: every
      field is an [option], [None] meaning that the key is absent.
    - Timestamps are [datetime.isoformat()] strings read back with
      [datetime.fromisoformat]; they are modelled by the [datetime] value.
    - Python sets are [gset Z]; [queue.Queue] is a FIFO list with a bound.
    - Python floats of the scorer are modelled by exact rationals.
    - Every reading of [datetime.now()] is an explicit argument. *)

From Stdlib Require Import ZArith QArith Qround Qminmax Lqa String Ascii DecimalString DecimalZ List Permutation Sorted Lia Bool.
From stdpp Require Import gmap strings list.
Import ListNotations.

Local Open Scope Z_scope.

(** ** Dates and times *)

Module Clock.

(** [datetime.datetime] (naive, as returned by [datetime.now()]). *)
Record datetime := {
  year : Z; month : Z; day : Z;
  hour : Z; minute : Z; second : Z; microsecond : Z
}.

(** [date.toordinal()]: days since 0001-01-01 (which is day 1) in the
    proleptic Gregorian calendar. *)
Definition is_leap (y : Z) : bool :=
  (y mod 4 =? 0) && (negb (y mod 100 =? 0) || (y mod 400 =? 0)).

Definition days_before_year (y : Z) : Z :=
  let y' := y - 1 in y' * 365 + y' / 4 - y' / 100 + y' / 400.

Definition days_in_month (y m : Z) : Z :=
  if m =? 2 then (if is_leap y then 29 else 28)
  else if (m =? 4) || (m =? 6) || (m =? 9) || (m =? 11) then 30 else 31.

Fixpoint days_before_month_aux (y : Z) (n : nat) : Z :=
  match n with
  | O => 0
  | S k => days_before_month_aux y k + days_in_month y (Z.of_nat (S k))
  end.

Definition days_before_month (y m : Z) : Z :=
  days_before_month_aux y (Z.to_nat (m - 1)).

Definition toordinal (d : datetime) : Z :=
  days_before_year (year d) + days_before_month (year d) (month d) + day d.

(** Microseconds since midnight. *)
Definition time_of_day (d : datetime) : Z :=
  ((hour d * 60 + minute d) * 60 + second d) * 1000000 + microsecond d.

Definition usec_per_day : Z := 86400 * 1000000.

(** [a - b] as a [timedelta], in microseconds. *)
Definition sub (a b : datetime) : Z :=
  (toordinal a - toordinal b) * usec_per_day + (time_of_day a - time_of_day b).

(** [timedelta.days]: the normalised day count (floor division). *)
Definition timedelta_days (td : Z) : Z := td / usec_per_day.

(** [a.date() == b.date()]. *)
Definition same_date (a b : datetime) : bool :=
  (year a =? year b) && (month a =? month b) && (day a =? day b).

(** [a >= b] on datetimes. *)
Definition geb (a b : datetime) : bool := 0 <=? sub a b.

(** [d.replace(hour=h, minute=m, second=0, microsecond=0)];
    [ValueError] ([None]) when the hour or the minute is out of range. *)
Definition replace_hm (d : datetime) (h m : Z) : option datetime :=
  if (0 <=? h) && (h <? 24) && (0 <=? m) && (m <? 60)
  then Some {| year := year d; month := month d; day := day d;
               hour := h; minute := m; second := 0; microsecond := 0 |}
  else None.

End Clock.

(** ** Python dictionaries with insertion order *)

Module PyDict.

Section Dict.
Context {V : Type}.

(** [d.get(k)] / [k in d]. *)
Fixpoint get (k : Z) (d : list (Z * V)) : option V :=
  match d with
  | [] => None
  | (k', v) :: rest => if Z.eqb k k' then Some v else get k rest
  end.

(** [d[k] = v]. *)
Fixpoint set (k : Z) (v : V) (d : list (Z * V)) : list (Z * V) :=
  match d with
  | [] => [(k, v)]
  | (k', v') :: rest =>
      if Z.eqb k k' then (k', v) :: rest else (k', v') :: set k v rest
  end.
End Dict.

End PyDict.

(** ** ChannelUpdateTracker *)

Module Tracker.

Import Clock.

(** One entry of [updates['channels']]. [stream_count] may hold the value
    [None], hence the nested option. *)
Record channel_info := {
  last_update : option datetime;
  needs_check : option bool;
  stream_count : option (option Z);
  checked_stream_ids : option (list Z);
  last_check : option datetime;
  force_check : option bool;
  queued_at : option datetime
}.

(** The empty dict [{}]. *)
Definition empty_info : channel_info :=
  {| last_update := None; needs_check := None; stream_count := None;
     checked_stream_ids := None; last_check := None; force_check := None;
     queued_at := None |}.

Definition set_needs_check (b : bool) (i : channel_info) : channel_info :=
  {| last_update := last_update i; needs_check := Some b;
     stream_count := stream_count i;
     checked_stream_ids := checked_stream_ids i;
     last_check := last_check i; force_check := force_check i;
     queued_at := queued_at i |}.

Definition set_queued_at (t : datetime) (i : channel_info) : channel_info :=
  {| last_update := last_update i; needs_check := needs_check i;
     stream_count := stream_count i;
     checked_stream_ids := checked_stream_ids i;
     last_check := last_check i; force_check := force_check i;
     queued_at := Some t |}.

Definition set_last_check (t : datetime) (i : channel_info) : channel_info :=
  {| last_update := last_update i; needs_check := needs_check i;
     stream_count := stream_count i;
     checked_stream_ids := checked_stream_ids i;
     last_check := Some t; force_check := force_check i;
     queued_at := queued_at i |}.

Definition set_stream_count (c : option Z) (i : channel_info) : channel_info :=
  {| last_update := last_update i; needs_check := needs_check i;
     stream_count := Some c;
     checked_stream_ids := checked_stream_ids i;
     last_check := last_check i; force_check := force_check i;
     queued_at := queued_at i |}.

Definition set_checked_stream_ids (l : list Z) (i : channel_info) : channel_info :=
  {| last_update := last_update i; needs_check := needs_check i;
     stream_count := stream_count i;
     checked_stream_ids := Some l;
     last_check := last_check i; force_check := force_check i;
     queued_at := queued_at i |}.

Definition set_force_check (b : bool) (i : channel_info) : channel_info :=
  {| last_update := last_update i; needs_check := needs_check i;
     stream_count := stream_count i;
     checked_stream_ids := checked_stream_ids i;
     last_check := last_check i; force_check := Some b;
     queued_at := queued_at i |}.

(** [self.updates]: the ['channels'] key may be missing from a loaded file. *)
Record updates := {
  channels : option (list (Z * channel_info));
  last_global_check : option datetime
}.

(** [_load_updates] without a file. *)
Definition initial : updates :=
  {| channels := Some []; last_global_check := None |}.

(** [self.updates.get('channels', {})]. *)
Definition channels_or_empty (u : updates) : list (Z * channel_info) :=
  match channels u with Some c => c | None => [] end.

Definition with_channels (c : list (Z * channel_info)) (u : updates) : updates :=
  {| channels := Some c; last_global_check := last_global_check u |}.

(** The record written by [mark_channel_updated] / [mark_channels_updated]
    for one channel. *)
Definition updated_record (old : option channel_info) (timestamp : datetime)
    (count : option Z) : channel_info :=
  match old with
  | Some channel_info =>
      (* checked_stream_ids = channel_info.get('checked_stream_ids', []) *)
      let checked :=
        match checked_stream_ids channel_info with Some l => l | None => [] end in
      {| last_update := Some timestamp; needs_check := Some true;
         stream_count := Some count; checked_stream_ids := Some checked;
         last_check := None; force_check := None; queued_at := None |}
  | None =>
      {| last_update := Some timestamp; needs_check := Some true;
         stream_count := Some count; checked_stream_ids := Some [];
         last_check := None; force_check := None; queued_at := None |}
  end.

(** [mark_channel_updated(channel_id, timestamp=None, stream_count=None)];
    [now] is the reading of [datetime.now()] used when no timestamp is
    given. *)
Definition mark_channel_updated (now : datetime) (u : updates) (channel_id : Z)
    (timestamp : option datetime) (count : option Z) : updates :=
  let timestamp := match timestamp with Some t => t | None => now end in
  let chans := channels_or_empty u in
  with_channels
    (PyDict.set channel_id
       (updated_record (PyDict.get channel_id chans) timestamp count) chans) u.

(** The [for channel_id in channel_ids] loop of [mark_channels_updated]. *)
Fixpoint mark_loop (timestamp : datetime) (stream_counts : gmap Z Z)
    (channel_ids : list Z) (chans : list (Z * channel_info))
    : list (Z * channel_info) :=
  match channel_ids with
  | [] => chans
  | channel_id :: rest =>
      let count := stream_counts !! channel_id in
      mark_loop timestamp stream_counts rest
        (PyDict.set channel_id
           (updated_record (PyDict.get channel_id chans) timestamp count) chans)
  end.

(** [mark_channels_updated(channel_ids, timestamp=None, stream_counts=None)]. *)
Definition mark_channels_updated (now : datetime) (u : updates)
    (channel_ids : list Z) (timestamp : option datetime)
    (stream_counts : option (gmap Z Z)) : updates :=
  let timestamp := match timestamp with Some t => t | None => now end in
  let stream_counts := match stream_counts with Some m => m | None => ∅ end in
  with_channels (mark_loop timestamp stream_counts channel_ids (channels_or_empty u)) u.

(** [info.get('needs_check', False)] used as a condition. *)
Definition needs_check_set (i : channel_info) : bool :=
  match needs_check i with Some b => b | None => false end.

(** [get_channels_needing_check()]: read only. *)
Definition get_channels_needing_check (u : updates) : list Z :=
  map fst (List.filter (fun e => needs_check_set (snd e)) (channels_or_empty u)).

(** [max_channels and len(channels) >= max_channels]. *)
Definition cap_reached (max_channels : option Z) (len : nat) : bool :=
  match max_channels with
  | None => false
  | Some m => negb (m =? 0) && (m <=? Z.of_nat len)
  end.

(** The loop of [get_and_clear_channels_needing_check]: walks the entries
    in dict order, collects the flagged ids, clears the flag and stamps
    [queued_at] in place, and stops at the cap. [acc] is [channels] so far. *)
Fixpoint get_and_clear_loop (max_channels : option Z) (timestamp : datetime)
    (entries : list (Z * channel_info)) (acc : list Z)
    : list (Z * channel_info) * list Z :=
  match entries with
  | [] => ([], acc)
  | (channel_id, info) :: rest =>
      if needs_check_set info then
        let acc' := acc ++ [channel_id] in
        let info' := set_queued_at timestamp (set_needs_check false info) in
        if cap_reached max_channels (length acc')
        then ((channel_id, info') :: rest, acc')
        else
          let '(rest', out) := get_and_clear_loop max_channels timestamp rest acc' in
          ((channel_id, info') :: rest', out)
      else
        let '(rest', out) := get_and_clear_loop max_channels timestamp rest acc in
        ((channel_id, info) :: rest', out)
  end.

(** [get_and_clear_channels_needing_check(max_channels=None)]: the returned
    list and the tracker afterwards. The in-place mutation of the records
    does not create a missing ['channels'] key. *)
Definition get_and_clear_channels_needing_check (now : datetime) (u : updates)
    (max_channels : option Z) : list Z * updates :=
  match channels u with
  | None => ([], u)
  | Some entries =>
      let '(entries', out) := get_and_clear_loop max_channels now entries [] in
      (out, with_channels entries' u)
  end.

(** [mark_channel_checked(channel_id, timestamp=None, stream_count=None,
    checked_stream_ids=None)]. *)
Definition mark_channel_checked (now : datetime) (u : updates) (channel_id : Z)
    (timestamp : option datetime) (count : option Z)
    (checked : option (list Z)) : updates :=
  let timestamp := match timestamp with Some t => t | None => now end in
  let chans := channels_or_empty u in
  match PyDict.get channel_id chans with
  | Some info =>
      let i1 := set_last_check timestamp (set_needs_check false info) in
      let i2 := match count with Some c => set_stream_count (Some c) i1 | None => i1 end in
      let i3 := match checked with Some l => set_checked_stream_ids l i2 | None => i2 end in
      with_channels (PyDict.set channel_id i3 chans) u
  | None =>
      with_channels
        (PyDict.set channel_id
           {| last_update := None; needs_check := Some false;
              stream_count := Some count;
              checked_stream_ids :=
                Some (match checked with Some l => l | None => [] end);
              last_check := Some timestamp; force_check := None;
              queued_at := None |} chans) u
  end.

(** [get_checked_stream_ids(channel_id)]. *)
Definition get_checked_stream_ids (u : updates) (channel_id : Z) : list Z :=
  match PyDict.get channel_id (channels_or_empty u) with
  | Some info => match checked_stream_ids info with Some l => l | None => [] end
  | None => []
  end.

(** [mark_channel_for_force_check(channel_id)]. *)
Definition mark_channel_for_force_check (u : updates) (channel_id : Z) : updates :=
  let chans := channels_or_empty u in
  let info := match PyDict.get channel_id chans with
              | Some i => i | None => empty_info end in
  with_channels (PyDict.set channel_id (set_force_check true info) chans) u.

(** [should_force_check(channel_id)]. *)
Definition should_force_check (u : updates) (channel_id : Z) : bool :=
  match PyDict.get channel_id (channels_or_empty u) with
  | Some info => match force_check info with Some b => b | None => false end
  | None => false
  end.

(** [clear_force_check(channel_id)]. *)
Definition clear_force_check (u : updates) (channel_id : Z) : updates :=
  match channels u with
  | None => u
  | Some chans =>
      match PyDict.get channel_id chans with
      | Some info =>
          with_channels (PyDict.set channel_id (set_force_check false info) chans) u
      | None => u
      end
  end.

(** [mark_global_check(timestamp=None)]. *)
Definition mark_global_check (now : datetime) (u : updates)
    (timestamp : option datetime) : updates :=
  let timestamp := match timestamp with Some t => t | None => now end in
  {| channels := channels u; last_global_check := Some timestamp |}.

(** [get_last_global_check()]. *)
Definition get_last_global_check (u : updates) : option datetime :=
  last_global_check u.

End Tracker.

(** ** StreamCheckQueue *)

Module CheckQueue.

Import Clock.

(** [self.stats]. *)
Record queue_stats := {
  total_queued : Z;
  total_completed : Z;
  total_failed : Z;
  current_channel : option Z;
  queue_size : Z
}.

(** The queue object. [queue] is the buffer of [queue.Queue(maxsize)],
    oldest entry first, holding [(priority, channel_id)] pairs; the buffer
    is bounded only when [max_size] is positive. *)
Record t := {
  max_size : Z;
  queue : list (Z * Z);
  queued : gset Z;
  in_progress : gset Z;
  completed : gset Z;
  failed : gmap Z (string * datetime);
  stats : queue_stats
}.

(** [StreamCheckQueue(max_size)]. *)
Definition init (max_size : Z) : t :=
  {| max_size := max_size; queue := []; queued := ∅; in_progress := ∅;
     completed := ∅; failed := ∅;
     stats := {| total_queued := 0; total_completed := 0; total_failed := 0;
                 current_channel := None; queue_size := 0 |} |}.

(** [queue.Queue.full()] as seen by [put(block=False)]. *)
Definition full (q : t) : bool :=
  (0 <? max_size q) && (max_size q <=? Z.of_nat (length (queue q))).

(** [add_channel(channel_id, priority=0)]. *)
Definition add_channel (q : t) (channel_id priority : Z) : bool * t :=
  if bool_decide (channel_id ∉ queued q) &&
     bool_decide (channel_id ∉ in_progress q) &&
     bool_decide (channel_id ∉ completed q)
  then
    if full q then (false, q)
    else
      let buf := queue q ++ [(priority, channel_id)] in
      (true,
       {| max_size := max_size q; queue := buf;
          queued := queued q ∪ {[channel_id]};
          in_progress := in_progress q; completed := completed q;
          failed := failed q;
          stats := {| total_queued := total_queued (stats q) + 1;
                      total_completed := total_completed (stats q);
                      total_failed := total_failed (stats q);
                      current_channel := current_channel (stats q);
                      queue_size := Z.of_nat (length buf) |} |})
  else (false, q).

(** [add_channels(channel_ids, priority=0)]: the number admitted. *)
Fixpoint add_channels (q : t) (channel_ids : list Z) (priority : Z) : Z * t :=
  match channel_ids with
  | [] => (0, q)
  | channel_id :: rest =>
      let '(ok, q1) := add_channel q channel_id priority in
      let '(added, q2) := add_channels q1 rest priority in
      ((if ok then 1 else 0) + added, q2)
  end.

(** [remove_from_completed(channel_id)]. *)
Definition remove_from_completed (q : t) (channel_id : Z) : bool * t :=
  if bool_decide (channel_id ∈ completed q)
  then (true,
        {| max_size := max_size q; queue := queue q; queued := queued q;
           in_progress := in_progress q;
           completed := completed q ∖ {[channel_id]};
           failed := failed q; stats := stats q |})
  else (false, q).

(** [get_next_channel(timeout)]: [None] when the buffer stays empty for
    the whole timeout. *)
Definition get_next_channel (q : t) : option Z * t :=
  match queue q with
  | [] => (None, q)
  | (priority, channel_id) :: buf =>
      (Some channel_id,
       {| max_size := max_size q; queue := buf;
          queued := queued q ∖ {[channel_id]};
          in_progress := in_progress q ∪ {[channel_id]};
          completed := completed q; failed := failed q;
          stats := {| total_queued := total_queued (stats q);
                      total_completed := total_completed (stats q);
                      total_failed := total_failed (stats q);
                      current_channel := Some channel_id;
                      queue_size := Z.of_nat (length buf) |} |})
  end.

(** [if self.stats['current_channel'] == channel_id: ... = None]. *)
Definition release_current (cur : option Z) (channel_id : Z) : option Z :=
  match cur with
  | Some c => if Z.eqb c channel_id then None else Some c
  | None => None
  end.

(** [mark_completed(channel_id)]. *)
Definition mark_completed (q : t) (channel_id : Z) : t :=
  {| max_size := max_size q; queue := queue q; queued := queued q;
     in_progress := in_progress q ∖ {[channel_id]};
     completed := completed q ∪ {[channel_id]};
     failed := failed q;
     stats := {| total_queued := total_queued (stats q);
                 total_completed := total_completed (stats q) + 1;
                 total_failed := total_failed (stats q);
                 current_channel := release_current (current_channel (stats q)) channel_id;
                 queue_size := queue_size (stats q) |} |}.

(** [mark_failed(channel_id, error)]. *)
Definition mark_failed (now : datetime) (q : t) (channel_id : Z) (error : string) : t :=
  {| max_size := max_size q; queue := queue q; queued := queued q;
     in_progress := in_progress q ∖ {[channel_id]};
     completed := completed q;
     failed := <[channel_id := (error, now)]> (failed q);
     stats := {| total_queued := total_queued (stats q);
                 total_completed := total_completed (stats q);
                 total_failed := total_failed (stats q) + 1;
                 current_channel := release_current (current_channel (stats q)) channel_id;
                 queue_size := queue_size (stats q) |} |}.

(** The operations of the queue, to run sequences of calls. *)
Inductive op :=
| AddChannel (channel_id priority : Z)
| AddChannels (channel_ids : list Z) (priority : Z)
| RemoveFromCompleted (channel_id : Z)
| GetNextChannel
| MarkCompleted (channel_id : Z)
| MarkFailed (channel_id : Z) (error : string) (now : datetime).

Definition step (q : t) (o : op) : t :=
  match o with
  | AddChannel c p => snd (add_channel q c p)
  | AddChannels cs p => snd (add_channels q cs p)
  | RemoveFromCompleted c => snd (remove_from_completed q c)
  | GetNextChannel => snd (get_next_channel q)
  | MarkCompleted c => mark_completed q c
  | MarkFailed c e now => mark_failed now q c e
  end.

Definition run (q : t) (ops : list op) : t := fold_left step ops q.

(** No channel id is in two of the three sets. *)
Definition exclusive (q : t) : Prop :=
  queued q ## in_progress q /\ queued q ## completed q /\
  in_progress q ## completed q.

(** The discipline of the worker loop: [mark_completed] reaches the queue
    only for a channel that is not waiting in it (the worker completes the
    channel it was handed by [get_next_channel]). *)
Fixpoint completes_unqueued (q : t) (ops : list op) : Prop :=
  match ops with
  | [] => True
  | o :: rest =>
      match o with
      | MarkCompleted c => c ∉ queued q
      | _ => True
      end /\ completes_unqueued (step q o) rest
  end.

End CheckQueue.

(** ** Python values and strings *)

Module Py.

Local Open Scope string_scope.

(** The values a field of a stream dict holds: [None], a number ([int] or
    [float]) or a string. *)
Inductive value :=
| PNone
| PNum (q : Q)
| PStr (s : string).

(** [d.get(key, default)] on an optional field. *)
Definition get_or {A} (field : option A) (default : A) : A :=
  match field with Some v => v | None => default end.

(** [s.lower()] on ASCII text. *)
Definition lower_ascii (c : ascii) : ascii :=
  let n := nat_of_ascii c in
  if (Nat.leb 65 n && Nat.leb n 90)%bool then ascii_of_nat (n + 32) else c.

Fixpoint lower (s : string) : string :=
  match s with
  | EmptyString => EmptyString
  | String c r => String (lower_ascii c) (lower r)
  end.

(** [needle in s]. *)
Fixpoint contains (needle s : string) : bool :=
  String.prefix needle s ||
  match s with
  | EmptyString => false
  | String _ r => contains needle r
  end.

(** [s.split(c)] for a one-character separator. *)
Fixpoint split (c : ascii) (s : string) : list string :=
  match s with
  | EmptyString => [EmptyString]
  | String a r =>
      if Ascii.eqb a c then EmptyString :: split c r
      else match split c r with
           | part :: parts => String a part :: parts
           | [] => [String a EmptyString]
           end
  end.

(** Whitespace that [int()] strips (ASCII range). *)
Definition is_space (c : ascii) : bool :=
  let n := nat_of_ascii c in
  (Nat.leb 9 n && Nat.leb n 13) || (Nat.leb 28 n && Nat.leb n 32).

Fixpoint lstrip (l : list ascii) : list ascii :=
  match l with
  | c :: r => if is_space c then lstrip r else l
  | [] => []
  end.

Definition strip (l : list ascii) : list ascii :=
  rev (lstrip (rev (lstrip l))).

Definition digit_val (c : ascii) : option Z :=
  let n := nat_of_ascii c in
  if (Nat.leb 48 n && Nat.leb n 57)%bool then Some (Z.of_nat n - 48) else None.

(** Decimal digits, single underscores allowed between two digits. *)
Fixpoint parse_digits (acc : Z) (after_digit : bool) (l : list ascii) : option Z :=
  match l with
  | [] => if after_digit then Some acc else None
  | c :: r =>
      if Ascii.eqb c "_"%char
      then (if after_digit then parse_digits acc false r else None)
      else match digit_val c with
           | Some d => parse_digits (acc * 10 + d) true r
           | None => None
           end
  end.

(** [int(s)] for a string; [None] is [ValueError]. *)
Definition int (s : string) : option Z :=
  match strip (list_ascii_of_string s) with
  | c :: r =>
      if Ascii.eqb c "-"%char then Z.opp <$> parse_digits 0 false r
      else if Ascii.eqb c "+"%char then parse_digits 0 false r
      else parse_digits 0 false (c :: r)
  | [] => None
  end.

(** [str(n)] for an integer. *)
Definition str (n : Z) : string := NilZero.string_of_int (Z.to_int n).

(** [f"{width}x{height}"], the way the analysis writes a resolution. *)
Definition resolution_text (width height : Z) : string :=
  str width ++ "x" ++ str height.

End Py.

(** ** The scorer of the service *)

Module Scorer.

Import Py.
Local Open Scope string_scope.
Local Open Scope Q_scope.

(** The dict built by [_check_channel] and filled by the analysis: the
    five identifying keys are always present, every measured key may be
    missing. *)
Record stream_data := {
  channel_id : Z;
  channel_name : string;
  stream_id : Z;
  stream_name : string;
  stream_url : string;
  resolution : option value;
  fps : option value;
  video_codec : option value;
  audio_codec : option value;
  bitrate_kbps : option value;
  status : option value;
  interlaced_status : option value;
  frames_decoded : option value;
  frames_dropped : option value;
  err_decode : option bool;
  err_discontinuity : option bool;
  err_timeout : option bool;
  score : option Q
}.

(** [config['scoring']]: a missing weight falls back to its default. *)
Record scoring := {
  w_bitrate : option Q;
  w_resolution : option Q;
  w_fps : option Q;
  w_codec : option Q;
  w_errors : option Q;
  prefer_h265 : bool;
  penalize_interlaced : bool;
  penalize_dropped_frames : bool
}.

(** [DEFAULT_CONFIG['scoring']]. *)
Definition default_scoring : scoring :=
  {| w_bitrate := Some (30 # 100); w_resolution := Some (25 # 100);
     w_fps := Some (15 # 100); w_codec := Some (10 # 100);
     w_errors := Some (20 # 100);
     prefer_h265 := true; penalize_interlaced := true;
     penalize_dropped_frames := true |}.

Definition Qlt_bool (a b : Q) : bool := negb (Qle_bool b a).

(** [isinstance(v, (int, float)) and v > 0]. *)
Definition positive_number (v : value) : option Q :=
  match v with
  | PNum q => if Qlt_bool 0 q then Some q else None
  | _ => None
  end.

(** Python's [round(x, 2)]: to the nearest hundredth, ties to even. *)
Definition round_half_even (q : Q) : Z :=
  let f := Qfloor q in
  match Qcompare (q - inject_Z f) (1 # 2) with
  | Lt => f
  | Gt => (f + 1)%Z
  | Eq => if Z.even f then f else (f + 1)%Z
  end.

Definition round2 (q : Q) : Q := inject_Z (round_half_even (q * 100)) / 100.

(** The bitrate term: [min(bitrate / 8000, 1.0)] for a usable bitrate,
    nothing otherwise. *)
Definition bitrate_score (d : stream_data) : Q :=
  match positive_number (get_or (bitrate_kbps d) (PNum 0)) with
  | Some b => Qmin (b / 8000) 1
  | None => 0
  end.

(** The step function on the vertical resolution. *)
Definition height_score (height : Z) : Q :=
  if (1080 <=? height)%Z then 1
  else if (720 <=? height)%Z then 7 # 10
  else if (576 <=? height)%Z then 5 # 10
  else 3 # 10.

(** [width, height = map(int, resolution.split('x'))]; [None] stands for
    the [ValueError] / [AttributeError] that the scorer swallows. *)
Definition parse_resolution (resolution : value) : option (Z * Z) :=
  match resolution with
  | PStr s =>
      if contains "x" s then
        match map Py.int (split "x"%char s) with
        | [Some width; Some height] => Some (width, height)
        | _ => None
        end
      else None
  | _ => None   (* str(resolution) has no 'x' *)
  end.

(** The unweighted resolution component. *)
Definition resolution_score (d : stream_data) : Q :=
  match parse_resolution (get_or (resolution d) (PStr "N/A")) with
  | Some (width, height) => height_score height
  | None => 0
  end.

Definition fps_score (d : stream_data) : Q :=
  match positive_number (get_or (fps d) (PNum 0)) with
  | Some f => Qmin (f / 60) 1
  | None => 0
  end.

(** [stream_data.get('video_codec', '').lower()]: [AttributeError] on a
    value that is not a string. *)
Definition codec_name (d : stream_data) : option string :=
  match get_or (video_codec d) (PStr "") with
  | PStr s => Some (lower s)
  | _ => None
  end.

Definition codec_score (cfg : scoring) (codec : string) : Q :=
  if String.eqb codec "" then 0
  else if contains "h265" codec || contains "hevc" codec
  then (if prefer_h265 cfg then 1 else 8 # 10)
  else if contains "h264" codec || contains "avc" codec
  then (if prefer_h265 cfg then 8 # 10 else 1)
  else if negb (String.eqb codec "n/a") then 5 # 10
  else 0.

(** [str(v).lower()] contains ['interlaced']; the text of a number or of
    [None] never does. *)
Definition mentions_interlaced (v : value) : bool :=
  match v with
  | PStr s => contains "interlaced" (lower s)
  | _ => false
  end.

Definition as_number (v : value) : option Q :=
  match v with PNum q => Some q | _ => None end.

(** The penalty for dropped frames. *)
Definition dropped_penalty (d : stream_data) : Q :=
  match as_number (get_or (frames_dropped d) (PNum 0)),
        as_number (get_or (frames_decoded d) (PNum 0)) with
  | Some dropped, Some decoded =>
      if Qlt_bool 0 decoded then
        let drop_rate := dropped / decoded in
        if Qlt_bool (1 # 100) drop_rate then Qmin (drop_rate * 5) (3 # 10) else 0
      else 0
  | _, _ => 0
  end.

Definition flag (b : option bool) : bool := get_or b false.

Definition status_ok (d : stream_data) : bool :=
  match status d with
  | Some (PStr s) => String.eqb s "OK"
  | _ => false
  end.

Definition error_score (cfg : scoring) (d : stream_data) : Q :=
  let e := 1 in
  let e := if status_ok d then e else e - (5 # 10) in
  let e := if flag (err_decode d) then e - (2 # 10) else e in
  let e := if flag (err_discontinuity d) then e - (2 # 10) else e in
  let e := if flag (err_timeout d) then e - (3 # 10) else e in
  let e := if penalize_interlaced cfg &&
              mentions_interlaced (get_or (interlaced_status d) (PStr "N/A"))
           then e - (1 # 10) else e in
  let e := if penalize_dropped_frames cfg then e - dropped_penalty d else e in
  Qmax e 0.

(** [_calculate_stream_score(stream_data)]; [None] when it raises. *)
Definition _calculate_stream_score (cfg : scoring) (d : stream_data) : option Q :=
  match codec_name d with
  | None => None
  | Some codec =>
      Some (round2
        (bitrate_score d * get_or (w_bitrate cfg) (30 # 100)
         + resolution_score d * get_or (w_resolution cfg) (25 # 100)
         + fps_score d * get_or (w_fps cfg) (15 # 100)
         + codec_score cfg codec * get_or (w_codec cfg) (10 # 100)
         + error_score cfg d * get_or (w_errors cfg) (20 # 100)))
  end.

End Scorer.

(** ** The row score of the command-line sorter ([score_streams]) *)

Module Sorter.

Local Open Scope string_scope.
Local Open Scope Q_scope.

(** One row of [summary]; a NaN cell is [None]. The three error columns
    are numeric after [pd.to_numeric(...).fillna(0)]. *)
Record row := {
  avg_bitrate_kbps : option Q;
  resolution : string;
  fps : option Q;
  dropped_frame_percentage : Q;
  err_decode : Q;
  err_discontinuity : Q;
  err_timeout : Q
}.

(** [RESOLUTION_SCORES], after [str.strip()], with [fillna(0)]. *)
Definition resolution_score (r : row) : Q :=
  let s := string_of_list_ascii (Py.strip (list_ascii_of_string (resolution r))) in
  if String.eqb s "3840x2160" then 100
  else if String.eqb s "1920x1080" then 80
  else if String.eqb s "1280x720" then 50
  else if String.eqb s "960x540" then 20
  else 0.

(** [groupby('channel_id')['avg_bitrate_kbps'].transform('max')]: NaN
    cells are skipped. *)
Fixpoint max_bitrate_for_channel (rows : list row) : option Q :=
  match rows with
  | [] => None
  | r :: rest =>
      match avg_bitrate_kbps r, max_bitrate_for_channel rest with
      | Some b, Some m => Some (Qmax b m)
      | Some b, None => Some b
      | None, m => m
      end
  end.

(** The score of one row of a channel whose rows are [rows]. *)
Definition row_score (fps_bonus_points : Q) (rows : list row) (r : row) : Q :=
  match avg_bitrate_kbps r with
  | None => -1     (* summary.loc[avg_bitrate_kbps.isna(), 'score'] = -1 *)
  | Some b =>
      let bitrate_score :=
        match max_bitrate_for_channel rows with
        | Some m => b / (m * (1 # 100))
        | None => 0
        end in
      let fps_bonus :=
        if Qle_bool 50 (Py.get_or (fps r) 0) then fps_bonus_points else 0 in
      let dropped_frames_penalty := dropped_frame_percentage r * 1 in
      let error_penalty :=
        (err_decode r + err_discontinuity r + err_timeout r) * 25 in
      bitrate_score + resolution_score r + fps_bonus
      - dropped_frames_penalty - error_penalty
  end.

End Sorter.

(** ** StreamCheckerService *)

Module Service.

Import Clock Py Scorer.
Local Open Scope string_scope.

(** [config['global_check_schedule']]. *)
Record schedule := {
  enabled : bool;
  frequency : string;
  sched_hour : Z;
  sched_minute : Z;
  day_of_month : Z
}.

(** The part of [StreamCheckConfig] that the service reads. *)
Record config := {
  pipeline_mode : string;
  global_check_schedule : schedule;
  scoring_cfg : scoring;
  max_channels_per_run : Z
}.

(** [DEFAULT_CONFIG]. *)
Definition default_config : config :=
  {| pipeline_mode := "pipeline_1_5";
     global_check_schedule :=
       {| enabled := true; frequency := "daily"; sched_hour := 3;
          sched_minute := 0; day_of_month := 1 |};
     scoring_cfg := default_scoring;
     max_channels_per_run := 50 |}.

(** The service object. [global_actions] is a ghost counter of the runs of
    [_perform_global_action]. *)
Record service := {
  cfg : config;
  update_tracker : Tracker.updates;
  check_queue : CheckQueue.t;
  checking : bool;
  global_action_in_progress : bool;
  global_actions : nat
}.

Definition with_tracker (u : Tracker.updates) (s : service) : service :=
  {| cfg := cfg s; update_tracker := u; check_queue := check_queue s;
     checking := checking s;
     global_action_in_progress := global_action_in_progress s;
     global_actions := global_actions s |}.

Definition with_queue (q : CheckQueue.t) (s : service) : service :=
  {| cfg := cfg s; update_tracker := update_tracker s; check_queue := q;
     checking := checking s;
     global_action_in_progress := global_action_in_progress s;
     global_actions := global_actions s |}.

Definition with_checking (b : bool) (s : service) : service :=
  {| cfg := cfg s; update_tracker := update_tracker s;
     check_queue := check_queue s; checking := b;
     global_action_in_progress := global_action_in_progress s;
     global_actions := global_actions s |}.

(** *** The scheduled global action *)

(** What the collaborators do during one global action: the channels that
    [refresh_playlists] and [discover_and_assign_streams] report through
    [mark_channels_updated] ([None] when they report nothing or fail), and
    the channel ids returned by the channel listing ([None] when the
    request fails or returns nothing). *)
Record automation := {
  refresh_marks : option (list Z * gmap Z Z);
  discover_marks : option (list Z * gmap Z Z);
  all_channels : option (list Z)
}.

Definition apply_marks (now : datetime) (m : option (list Z * gmap Z Z))
    (u : Tracker.updates) : Tracker.updates :=
  match m with
  | Some (ids, counts) => Tracker.mark_channels_updated now u ids None (Some counts)
  | None => u
  end.

(** [channel_ids[i:i+n] for i in range(0, len(channel_ids), n)], [n > 0]. *)
Fixpoint batches (fuel : nat) (n : nat) (l : list Z) : list (list Z) :=
  match fuel, l with
  | _, [] => []
  | O, _ => []
  | S k, _ => take n l :: batches k n (drop n l)
  end.

Definition add_batches (q : CheckQueue.t) (bs : list (list Z)) (priority : Z)
    : CheckQueue.t :=
  fold_left (fun q batch => snd (CheckQueue.add_channels q batch priority)) bs q.

(** [_queue_all_channels(force_check)]. A batch size of zero makes
    [range] raise, which the function swallows after the force marks and
    the removals are done; a negative one gives no batch. *)
Definition _queue_all_channels (ext : automation) (s : service) (force : bool)
    : service :=
  match all_channels ext with
  | None | Some [] => s
  | Some channel_ids =>
      let u := if force
               then fold_left Tracker.mark_channel_for_force_check channel_ids
                      (update_tracker s)
               else update_tracker s in
      let q := fold_left (fun q c => snd (CheckQueue.remove_from_completed q c))
                 channel_ids (check_queue s) in
      let n := max_channels_per_run (cfg s) in
      let q' := if (0 <? n)%Z
                then add_batches q (batches (length channel_ids) (Z.to_nat n) channel_ids) 5
                else q in
      with_queue q' (with_tracker u s)
  end.

(** [_perform_global_action()]: the flag is raised, the three steps run,
    the flag is cleared. *)
Definition _perform_global_action (now : datetime) (ext : automation)
    (s : service) : service :=
  let s1 := {| cfg := cfg s; update_tracker := update_tracker s;
               check_queue := check_queue s; checking := checking s;
               global_action_in_progress := true;
               global_actions := S (global_actions s) |} in
  let s2 := with_tracker
              (apply_marks now (discover_marks ext)
                 (apply_marks now (refresh_marks ext) (update_tracker s1))) s1 in
  let s3 := _queue_all_channels ext s2 true in
  {| cfg := cfg s3; update_tracker := update_tracker s3;
     check_queue := check_queue s3; checking := checking s3;
     global_action_in_progress := false;
     global_actions := global_actions s3 |}.

(** [pipeline_mode in ['pipeline_1_5', 'pipeline_2_5', 'pipeline_3']]. *)
Definition has_scheduled_action (mode : string) : bool :=
  String.eqb mode "pipeline_1_5" || String.eqb mode "pipeline_2_5" ||
  String.eqb mode "pipeline_3".

(** [abs((now - scheduled_time_today).total_seconds() / 60) <= 10],
    in microseconds. *)
Definition within_window (now scheduled : datetime) : bool :=
  (Z.abs (Clock.sub now scheduled) <=? 10 * 60 * 1000000)%Z.

(** The run followed by [mark_global_check()]. *)
Definition run_and_mark (now stamp : datetime) (ext : automation) (s : service)
    : service :=
  let s' := _perform_global_action now ext s in
  with_tracker (Tracker.mark_global_check stamp (update_tracker s') None) s'.

(** [_check_global_schedule()]. [now] is the reading of the clock at the
    top of the function, [stamp] the later reading taken by
    [mark_global_check]. [None] is the [ValueError] of [datetime.replace]
    on an hour or minute out of range. *)
Definition _check_global_schedule (now stamp : datetime) (ext : automation)
    (s : service) : option service :=
  let sch := global_check_schedule (cfg s) in
  if negb (enabled sch) then Some s
  else if negb (has_scheduled_action (pipeline_mode (cfg s))) then Some s
  else
    let last_global := Tracker.get_last_global_check (update_tracker s) in
    match replace_hm now (sched_hour sch) (sched_minute sch) with
    | None => None
    | Some scheduled_time_today =>
        match last_global with
        | None =>
            if within_window now scheduled_time_today
            then Some (run_and_mark now stamp ext s)
            else Some s
        | Some last_check_time =>
            let should_run :=
              if String.eqb (frequency sch) "monthly" then
                (day now =? day_of_month sch)%Z &&
                (negb (month last_check_time =? month now)%Z ||
                 negb (year last_check_time =? year now)%Z ||
                 (30 <=? timedelta_days (Clock.sub now last_check_time))%Z)
              else negb (same_date last_check_time now) in
            if should_run && geb now scheduled_time_today
            then Some (run_and_mark now stamp ext s)
            else Some s
        end
    end.

(** One wake-up of the scheduler loop as far as the schedule goes: the
    two clock readings and what the collaborators do. *)
Record tick := { t_now : datetime; t_stamp : datetime; t_ext : automation }.

(** [_check_global_schedule] invoked once per tick, in sequence. *)
Fixpoint check_schedule_repeatedly (ticks : list tick) (s : service)
    : option service :=
  match ticks with
  | [] => Some s
  | t :: rest =>
      match _check_global_schedule (t_now t) (t_stamp t) (t_ext t) s with
      | Some s' => check_schedule_repeatedly rest s'
      | None => None
      end
  end.

(** *** The per-channel check *)

(** A stream object of the channel's stream listing: [s['id']],
    [s.get('name')], [s.get('url')]. *)
Record stream := {
  id : Z;
  name : option string;
  url : option string
}.

(** The measurements one run of the probes writes into the row. *)
Record probe := {
  p_video_codec : value;
  p_audio_codec : value;
  p_resolution : value;
  p_fps : value;
  p_interlaced_status : value;
  p_bitrate_kbps : value;
  p_frames_decoded : value;
  p_frames_dropped : value;
  p_status : value;
  p_err_decode : bool;
  p_err_discontinuity : bool;
  p_err_timeout : bool
}.

(** The persisted quality statistics of a stream. *)
Record stream_stats := {
  ss_resolution : option value;
  ss_source_fps : option value;
  ss_video_codec : option value;
  ss_audio_codec : option value;
  ss_ffmpeg_output_bitrate : option value
}.

(** [{}]. *)
Definition no_stats : stream_stats :=
  {| ss_resolution := None; ss_source_fps := None; ss_video_codec := None;
     ss_audio_codec := None; ss_ffmpeg_output_bitrate := None |}.

(** What [json.loads] makes of a ['stream_stats'] string. *)
Inductive json_text :=
| JsonInvalid                      (* JSONDecodeError *)
| JsonNull
| JsonDict (d : stream_stats)
| JsonOther.                       (* a list, a number, ...: no [.get] *)

(** The ['stream_stats'] field of a fetched stream. *)
Inductive stats_field :=
| StatsAbsent
| StatsNull
| StatsDict (d : stream_stats)
| StatsText (decoded : json_text).

(** The external calls of the check. [None] on an [option unit] or on the
    probe means that the call raises. *)
Record api := {
  (* GET channels/{id}/: [None] when nothing usable comes back, otherwise
     the ['name'] field *)
  fetch_channel : Z -> option (option string);
  (* fetch_channel_streams(channel_id) *)
  fetch_channel_streams : Z -> option (list stream);
  (* GET streams/{id}/: [None] when nothing usable comes back *)
  fetch_stream : Z -> option stats_field;
  (* the probes run by _analyze_stream_task on a url *)
  run_probe : string -> option probe;
  (* _update_stream_stats(analyzed) *)
  update_stream_stats : stream_data -> option unit;
  (* update_channel_streams(channel_id, stream_ids) *)
  update_channel_streams : Z -> list Z -> option unit
}.

(** [stream_row] of the check. *)
Definition stream_row (channel_id : Z) (channel_name : string) (s : stream)
    : stream_data :=
  {| Scorer.channel_id := channel_id; Scorer.channel_name := channel_name;
     stream_id := id s;
     stream_name := get_or (name s) "Unknown";
     stream_url := get_or (url s) "";
     resolution := None; fps := None; video_codec := None;
     audio_codec := None; bitrate_kbps := None; status := None;
     interlaced_status := None; frames_decoded := None;
     frames_dropped := None; err_decode := None;
     err_discontinuity := None; err_timeout := None; score := None |}.

(** [_analyze_stream_task(row, ...)]: a row without url comes back as it
    is; otherwise the measured keys are (over)written in the same row. *)
Definition _analyze_stream_task (a : api) (row : stream_data)
    : option stream_data :=
  if String.eqb (stream_url row) "" then Some row
  else
    match run_probe a (stream_url row) with
    | None => None
    | Some p =>
        Some {| Scorer.channel_id := Scorer.channel_id row;
                Scorer.channel_name := Scorer.channel_name row;
                stream_id := stream_id row;
                stream_name := stream_name row;
                stream_url := stream_url row;
                resolution := Some (p_resolution p);
                fps := Some (p_fps p);
                video_codec := Some (p_video_codec p);
                audio_codec := Some (p_audio_codec p);
                bitrate_kbps := Some (p_bitrate_kbps p);
                status := Some (p_status p);
                interlaced_status := Some (p_interlaced_status p);
                frames_decoded := Some (p_frames_decoded p);
                frames_dropped := Some (p_frames_dropped p);
                err_decode := Some (p_err_decode p);
                err_discontinuity := Some (p_err_discontinuity p);
                err_timeout := Some (p_err_timeout p);
                score := score row |}
    end.

(** [analyzed['score'] = score]. *)
Definition set_score (q : Q) (d : stream_data) : stream_data :=
  {| Scorer.channel_id := Scorer.channel_id d;
     Scorer.channel_name := Scorer.channel_name d;
     stream_id := stream_id d; stream_name := stream_name d;
     stream_url := stream_url d; resolution := resolution d; fps := fps d;
     video_codec := video_codec d; audio_codec := audio_codec d;
     bitrate_kbps := bitrate_kbps d; status := status d;
     interlaced_status := interlaced_status d;
     frames_decoded := frames_decoded d; frames_dropped := frames_dropped d;
     err_decode := err_decode d; err_discontinuity := err_discontinuity d;
     err_timeout := err_timeout d; score := Some q |}.

(** Analyse one stream, push its statistics, score it. *)
Definition analyze_and_score (a : api) (c : scoring) (row : stream_data)
    : option stream_data :=
  match _analyze_stream_task a row with
  | None => None
  | Some analyzed =>
      match update_stream_stats a analyzed with
      | None => None
      | Some _ =>
          match _calculate_stream_score c analyzed with
          | None => None
          | Some sc => Some (set_score sc analyzed)
          end
      end
  end.

(** The normalisation of the fetched ['stream_stats']; [None] when
    [.get] is applied to something that has none. *)
Definition cached_stats (f : stats_field) : option stream_stats :=
  match f with
  | StatsAbsent | StatsNull => Some no_stats
  | StatsDict d => Some d
  | StatsText JsonInvalid | StatsText JsonNull => Some no_stats
  | StatsText (JsonDict d) => Some d
  | StatsText JsonOther => None
  end.

(** The dict rebuilt from the stored statistics of a checked stream. *)
Definition from_cache (channel_id : Z) (channel_name : string) (s : stream)
    (st : stream_stats) : stream_data :=
  {| Scorer.channel_id := channel_id; Scorer.channel_name := channel_name;
     stream_id := id s;
     stream_name := get_or (name s) "Unknown";
     stream_url := get_or (url s) "";
     resolution := Some (get_or (ss_resolution st) (PStr "0x0"));
     fps := Some (get_or (ss_source_fps st) (PNum 0));
     video_codec := Some (get_or (ss_video_codec st) (PStr "N/A"));
     audio_codec := Some (get_or (ss_audio_codec st) (PStr "N/A"));
     bitrate_kbps := Some (get_or (ss_ffmpeg_output_bitrate st) (PNum 0));
     status := Some (PStr "OK");
     interlaced_status := None; frames_decoded := None;
     frames_dropped := None; err_decode := None;
     err_discontinuity := None; err_timeout := None; score := None |}.

(** The body of the loop over [streams_already_checked]. *)
Definition reuse_or_analyze (a : api) (c : scoring) (channel_id : Z)
    (channel_name : string) (s : stream) : option stream_data :=
  match fetch_stream a (id s) with
  | Some field =>
      match cached_stats field with
      | None => None
      | Some st =>
          let analyzed := from_cache channel_id channel_name s st in
          match _calculate_stream_score c analyzed with
          | None => None
          | Some sc => Some (set_score sc analyzed)
          end
      end
  | None => analyze_and_score a c (stream_row channel_id channel_name s)
  end.

(** A loop that appends one result per element and stops at the first
    exception. *)
Fixpoint for_each {A B} (f : A -> option B) (l : list A) : option (list B) :=
  match l with
  | [] => Some []
  | x :: rest =>
      match f x with
      | None => None
      | Some y =>
          match for_each f rest with
          | None => None
          | Some ys => Some (y :: ys)
          end
      end
  end.

(** [analyzed_streams] before the sort: the new streams, then the reused
    ones. *)
Definition analyze_all (a : api) (c : scoring) (channel_id : Z)
    (channel_name : string) (streams_to_check streams_already_checked : list stream)
    : option (list stream_data) :=
  match for_each (fun s => analyze_and_score a c
                             (stream_row channel_id channel_name s))
                 streams_to_check with
  | None => None
  | Some fresh =>
      match for_each (reuse_or_analyze a c channel_id channel_name)
                     streams_already_checked with
      | None => None
      | Some reused => Some (fresh ++ reused)%list
      end
  end.

(** The sort key [x.get('score', 0)]. *)
Definition sort_key (d : stream_data) : Q := get_or (score d) 0%Q.

(** [list.sort(key=..., reverse=True)] is a stable sort: the result is
    the unique descending arrangement that keeps elements of equal key in
    their order, which this insertion sort computes. *)
Fixpoint insert_desc (x : stream_data) (l : list stream_data) : list stream_data :=
  match l with
  | [] => [x]
  | y :: rest =>
      if Qlt_bool (sort_key x) (sort_key y) then y :: insert_desc x rest
      else x :: y :: rest
  end.

Definition sort_desc (l : list stream_data) : list stream_data :=
  foldr insert_desc [] l.

(** [s['id'] in checked_stream_ids]. *)
Definition is_checked (checked : list Z) (s : stream) : bool :=
  existsb (Z.eqb (id s)) checked.

(** How [_check_channel] ends. *)
Inductive outcome :=
| NoStreams                                   (* early return *)
| Reordered (analyzed_streams : list stream_data) (reordered_ids : list Z)
| Failed.                                     (* the except branch *)

(** [_check_channel(channel_id)]. [now] stamps the tracker and the failure
    record, whose message [str(e)] is not modelled. The read-back after the
    write and the changelog only log. *)
Definition _check_channel (a : api) (now : datetime) (s : service)
    (channel_id : Z) : outcome * service :=
  let fail (s' : service) :=
    (Failed,
     with_checking false
       (with_queue (CheckQueue.mark_failed now (check_queue s') channel_id "error") s')) in
  match fetch_channel a channel_id with
  | None => fail s
  | Some name_field =>
      let channel_name := get_or name_field ("Channel " ++ str channel_id) in
      match fetch_channel_streams a channel_id with
      | None | Some [] =>
          (NoStreams,
           with_checking false
             (with_tracker
                (Tracker.mark_channel_checked now (update_tracker s) channel_id
                   None None None)
                (with_queue (CheckQueue.mark_completed (check_queue s) channel_id) s)))
      | Some streams =>
          let force_check := Tracker.should_force_check (update_tracker s) channel_id in
          let checked_stream_ids :=
            Tracker.get_checked_stream_ids (update_tracker s) channel_id in
          let current_stream_ids := map id streams in
          let streams_to_check :=
            if force_check then streams
            else List.filter (fun st => negb (is_checked checked_stream_ids st)) streams in
          let streams_already_checked :=
            if force_check then []
            else List.filter (is_checked checked_stream_ids) streams in
          let s1 :=
            if force_check
            then with_tracker (Tracker.clear_force_check (update_tracker s) channel_id) s
            else s in
          match analyze_all a (scoring_cfg (cfg s)) channel_id channel_name
                  streams_to_check streams_already_checked with
          | None => fail s1
          | Some analyzed_streams =>
              let sorted := sort_desc analyzed_streams in
              let reordered_ids := map stream_id sorted in
              match update_channel_streams a channel_id reordered_ids with
              | None => fail s1
              | Some _ =>
                  (Reordered sorted reordered_ids,
                   with_checking false
                     (with_tracker
                        (Tracker.mark_channel_checked now (update_tracker s1)
                           channel_id None
                           (Some (Z.of_nat (length streams)))
                           (Some current_stream_ids))
                        (with_queue
                           (CheckQueue.mark_completed (check_queue s1) channel_id) s1)))
              end
          end
      end
  end.

End Service.

(** ** Reference behaviour and sample data used in the statements *)

Module Samples.

Import Clock Tracker.

(** What one flagged entry becomes when it is handed out. *)
Definition handed_out (now : datetime) (e : Z * channel_info) : Z * channel_info :=
  if needs_check_set (snd e)
  then (fst e, set_queued_at now (set_needs_check false (snd e)))
  else e.

Definition flagged (entries : list (Z * channel_info)) : list Z :=
  map fst (List.filter (fun e => needs_check_set (snd e)) entries).

(** The checked ids that survive a mark. *)
Definition kept_checked_ids (old : option channel_info) : list Z :=
  match old with
  | Some i => match checked_stream_ids i with Some l => l | None => [] end
  | None => []
  end.

Definition noon : datetime :=
  {| year := 2024; month := 5; day := 17; hour := 12; minute := 0;
     second := 0; microsecond := 0 |}.

Definition early : datetime :=
  {| year := 2024; month := 5; day := 16; hour := 3; minute := 0;
     second := 30; microsecond := 250 |}.

(** Channel 42 was checked once (streams 7 and 9) and is marked for a
    forced check; channel 5 is waiting for its check. *)
Definition sample_updates : updates :=
  {| channels :=
       Some [(42, {| last_update := Some early; needs_check := Some false;
                     stream_count := Some (Some 2);
                     checked_stream_ids := Some [7; 9];
                     last_check := Some early; force_check := Some true;
                     queued_at := Some early |});
             (5, {| last_update := Some early; needs_check := Some true;
                    stream_count := Some None;
                    checked_stream_ids := Some [];
                    last_check := None; force_check := None;
                    queued_at := None |})];
     last_global_check := None |}.

(** A run of the queue in the way the service drives it. *)
Definition sample_ops : list CheckQueue.op :=
  [CheckQueue.AddChannels [1; 2] 10; CheckQueue.GetNextChannel;
   CheckQueue.MarkCompleted 1; CheckQueue.RemoveFromCompleted 1;
   CheckQueue.AddChannel 1 5; CheckQueue.GetNextChannel;
   CheckQueue.MarkFailed 2 "timeout" noon; CheckQueue.AddChannel 3 0].

(** [mark_completed] on a channel that is still waiting. *)
Definition stray_completion : list CheckQueue.op :=
  [CheckQueue.AddChannel 1 0; CheckQueue.MarkCompleted 1].







(** The dict rebuilt for a checked stream that has no stored statistics:
    resolution ["0x0"], fps 0, bitrate 0, status ["OK"]. *)
Definition cached_blank : Scorer.stream_data :=
  Service.from_cache 1 "News" {| Service.id := 13; Service.name := None;
                                 Service.url := None |} Service.no_stats.

(** The value of a digit sequence read from the left, starting at [acc]. *)
Fixpoint digits_value (acc : Z) (d : Decimal.uint) : Z :=
  match d with
  | Decimal.Nil => acc
  | Decimal.D0 r => digits_value (acc * 10 + 0) r
  | Decimal.D1 r => digits_value (acc * 10 + 1) r
  | Decimal.D2 r => digits_value (acc * 10 + 2) r
  | Decimal.D3 r => digits_value (acc * 10 + 3) r
  | Decimal.D4 r => digits_value (acc * 10 + 4) r
  | Decimal.D5 r => digits_value (acc * 10 + 5) r
  | Decimal.D6 r => digits_value (acc * 10 + 6) r
  | Decimal.D7 r => digits_value (acc * 10 + 7) r
  | Decimal.D8 r => digits_value (acc * 10 + 8) r
  | Decimal.D9 r => digits_value (acc * 10 + 9) r
  end.

(** A character of a printed integer: a digit or the minus sign. *)
Definition numeric_char (c : ascii) : bool :=
  match Py.digit_val c with Some _ => true | None => Ascii.eqb c "-"%char end.









(** The configured time of day, in microseconds after midnight. *)
Definition scheduled_time (sch : Service.schedule) : Z :=
  (Service.sched_hour sch * 3600 + Service.sched_minute sch * 60) * 1000000.

(** The hour and the minute of the schedule are a time of day. *)
Definition valid_time (sch : Service.schedule) : Prop :=
  0 <= Service.sched_hour sch < 24 /\ 0 <= Service.sched_minute sch < 60.

(** [now] is within ten minutes of today's scheduled time. *)
Definition within_ten_minutes (sch : Service.schedule) (now : Clock.datetime) : Prop :=
  Z.abs (Clock.time_of_day now - scheduled_time sch) <= 10 * 60 * 1000000.

(** [last = now - timedelta(days=2)]. *)
Definition two_days_before (last now : Clock.datetime) : Prop :=
  Clock.toordinal last = Clock.toordinal now - 2 /\
  Clock.time_of_day last = Clock.time_of_day now.

(** An invocation made on the calendar day of [now], not before [now]. *)
Definition later_that_day (now : Clock.datetime) (t : Service.tick) : Prop :=
  Clock.same_date (Service.t_now t) now = true /\
  Clock.same_date (Service.t_stamp t) now = true /\
  Clock.time_of_day now <= Clock.time_of_day (Service.t_now t).

(** 17 May 2024, 03:00:05 and a little later. *)
Definition at_three : Clock.datetime :=
  {| Clock.year := 2024; Clock.month := 5; Clock.day := 17; Clock.hour := 3;
     Clock.minute := 0; Clock.second := 5; Clock.microsecond := 0 |}.

Definition just_after (n : Z) : Clock.datetime :=
  {| Clock.year := 2024; Clock.month := 5; Clock.day := 17; Clock.hour := 3;
     Clock.minute := 0; Clock.second := 5; Clock.microsecond := n |}.

Definition two_days_ago : Clock.datetime :=
  {| Clock.year := 2024; Clock.month := 5; Clock.day := 15; Clock.hour := 3;
     Clock.minute := 0; Clock.second := 5; Clock.microsecond := 0 |}.

(** The listing returns channels 7 and 8; nothing is refreshed. *)
Definition quiet_world : Service.automation :=
  {| Service.refresh_marks := None; Service.discover_marks := None;
     Service.all_channels := Some [7; 8] |}.

(** Five invocations in a tight loop. *)
Definition five_ticks : list Service.tick :=
  map (fun n => {| Service.t_now := just_after (10 * n);
                   Service.t_stamp := just_after (10 * n + 5);
                   Service.t_ext := quiet_world |}) [0; 1; 2; 3; 4].

(** A service with the default configuration whose last global check is
    two days old, and one that never ran a global check. *)
Definition stale_service : Service.service :=
  {| Service.cfg := Service.default_config;
     Service.update_tracker :=
       Tracker.mark_global_check two_days_ago Tracker.initial None;
     Service.check_queue := CheckQueue.init 1000;
     Service.checking := false;
     Service.global_action_in_progress := false;
     Service.global_actions := 0 |}.

Definition fresh_service : Service.service :=
  {| Service.cfg := Service.default_config;
     Service.update_tracker := Tracker.initial;
     Service.check_queue := CheckQueue.init 1000;
     Service.checking := false;
     Service.global_action_in_progress := false;
     Service.global_actions := 0 |}.

(** A channel of the command-line sorter: a healthy stream, a stream
    measured at 10 kbps with all three critical errors, and a stream whose
    bitrate could not be measured. *)
Definition sorter_good : Sorter.row :=
  {| Sorter.avg_bitrate_kbps := Some 5000%Q; Sorter.resolution := "1920x1080";
     Sorter.fps := Some 25%Q; Sorter.dropped_frame_percentage := 0%Q;
     Sorter.err_decode := 0%Q; Sorter.err_discontinuity := 0%Q;
     Sorter.err_timeout := 0%Q |}.

Definition sorter_broken : Sorter.row :=
  {| Sorter.avg_bitrate_kbps := Some 10%Q; Sorter.resolution := "Unknown";
     Sorter.fps := None; Sorter.dropped_frame_percentage := 0%Q;
     Sorter.err_decode := 1%Q; Sorter.err_discontinuity := 1%Q;
     Sorter.err_timeout := 1%Q |}.

Definition sorter_unmeasured : Sorter.row :=
  {| Sorter.avg_bitrate_kbps := None; Sorter.resolution := "1920x1080";
     Sorter.fps := Some 25%Q; Sorter.dropped_frame_percentage := 0%Q;
     Sorter.err_decode := 0%Q; Sorter.err_discontinuity := 0%Q;
     Sorter.err_timeout := 0%Q |}.

Definition sorter_channel : list Sorter.row :=
  [sorter_good; sorter_broken; sorter_unmeasured].

(** The buffer holds each waiting channel once, every buffered channel is
    in [queued], and the three sets are pairwise disjoint. *)
Definition queue_inv (q : CheckQueue.t) : Prop :=
  NoDup (map snd (CheckQueue.queue q)) /\
  (forall c, In c (map snd (CheckQueue.queue q)) -> c ∈ CheckQueue.queued q) /\
  CheckQueue.exclusive q.

End Samples.

(** ** More of the service: queue housekeeping, the loops, the triggers *)

Module CheckQueueOps.

Import CheckQueue.

(** [get_status()]: the counters of the queue. *)
Record status := {
  st_queue_size : Z;
  st_queued : Z;
  st_in_progress : Z;
  st_completed : Z;
  st_failed : Z;
  st_current_channel : option Z;
  st_total_queued : Z;
  st_total_completed : Z;
  st_total_failed : Z
}.

Definition get_status (q : t) : status :=
  {| st_queue_size := Z.of_nat (length (queue q));
     st_queued := Z.of_nat (size (queued q));
     st_in_progress := Z.of_nat (size (in_progress q));
     st_completed := Z.of_nat (size (completed q));
     st_failed := Z.of_nat (size (failed q));
     st_current_channel := current_channel (stats q);
     st_total_queued := total_queued (stats q);
     st_total_completed := total_completed (stats q);
     st_total_failed := total_failed (stats q) |}.

(** [clear()]: the buffer is emptied, the sets, the failures and the
    counters are reset; the bound of the buffer stays. *)
Definition clear (q : t) : t :=
  {| max_size := max_size q; queue := []; queued := ∅; in_progress := ∅;
     completed := ∅; failed := ∅;
     stats := {| total_queued := 0; total_completed := 0; total_failed := 0;
                 current_channel := None; queue_size := 0 |} |}.

(** [get_next_channel] called [n] times: the channels handed out, in
    order (an empty buffer hands out nothing). *)
Fixpoint drain (n : nat) (q : t) : list Z * t :=
  match n with
  | O => ([], q)
  | S k =>
      match get_next_channel q with
      | (Some c, q1) => let '(cs, q2) := drain k q1 in (c :: cs, q2)
      | (None, q1) => drain k q1
      end
  end.

(** [add_channel(channel_id, priority)] for each pair, in order. *)
Definition add_each (q : t) (entries : list (Z * Z)) : t :=
  fold_left (fun q e => snd (add_channel q (fst e) (snd e))) entries q.

(** The buffer and the [queued] set tell the same story, the bound of the
    buffer is respected and [stats['queue_size']] is up to date. *)
Definition in_sync (q : t) : Prop :=
  NoDup (map snd (queue q)) /\
  (forall c, c ∈ queued q <-> In c (map snd (queue q))) /\
  (0 < max_size q -> Z.of_nat (length (queue q)) <= max_size q) /\
  queue_size (stats q) = Z.of_nat (length (queue q)).

(** The calls a single worker and its neighbours make: the worker takes a
    channel only when it holds none, and completes or fails only the
    channel it holds; everybody else adds channels or releases completed
    ones. [cur] is the channel the worker holds. *)
Fixpoint single_worker (q : t) (cur : option Z) (ops : list op) : Prop :=
  match ops with
  | [] => True
  | GetNextChannel :: rest =>
      cur = None /\
      single_worker (snd (get_next_channel q)) (fst (get_next_channel q)) rest
  | MarkCompleted c :: rest =>
      cur = Some c /\ single_worker (mark_completed q c) None rest
  | MarkFailed c e now :: rest =>
      cur = Some c /\ single_worker (mark_failed now q c e) None rest
  | o :: rest => single_worker (step q o) cur rest
  end.

(** The channel held by the worker after [ops]. *)
Fixpoint held_after (q : t) (cur : option Z) (ops : list op) : option Z :=
  match ops with
  | [] => cur
  | GetNextChannel :: rest =>
      held_after (snd (get_next_channel q)) (fst (get_next_channel q)) rest
  | MarkCompleted c :: rest => held_after (mark_completed q c) None rest
  | MarkFailed c e now :: rest => held_after (mark_failed now q c e) None rest
  | o :: rest => held_after (step q o) cur rest
  end.

(** The set [in_progress] of a queue whose worker holds [cur]. *)
Definition holds (cur : option Z) : gset Z :=
  match cur with Some c => {[c]} | None => ∅ end.

End CheckQueueOps.

Module TrackerOps.

Import Clock Tracker.

(** The keys of ['channels'] are distinct, as the keys of a dict are. *)
Definition distinct_keys (u : updates) : Prop :=
  NoDup (map fst (channels_or_empty u)).

(** How many channels a call with [max_channels] hands out at most:
    [None] and [0] mean no cap, a negative cap stops after the first
    channel. *)
Definition effective_cap (max_channels : option Z) : option nat :=
  match max_channels with
  | None => None
  | Some m => if m =? 0 then None else Some (Nat.max 1 (Z.to_nat m))
  end.

Definition capped {A} (cap : option nat) (l : list A) : list A :=
  match cap with Some n => take n l | None => l end.

Definition beyond_cap {A} (cap : option nat) (l : list A) : list A :=
  match cap with Some n => drop n l | None => [] end.

End TrackerOps.

Module ServiceOps.

Import Clock Py Scorer Service.
Local Open Scope string_scope.

(** [pipeline_mode in ['disabled', 'pipeline_2', 'pipeline_2_5',
    'pipeline_3']]. *)
Definition skips_check_on_update (mode : string) : bool :=
  String.eqb mode "disabled" || String.eqb mode "pipeline_2" ||
  String.eqb mode "pipeline_2_5" || String.eqb mode "pipeline_3".

(** [_queue_updated_channels()]. *)
Definition _queue_updated_channels (now : datetime) (s : service) : service :=
  if skips_check_on_update (pipeline_mode (cfg s)) then s
  else
    let max_channels := max_channels_per_run (cfg s) in
    let '(channels_to_queue, u) :=
      Tracker.get_and_clear_channels_needing_check now (update_tracker s)
        (Some max_channels) in
    match channels_to_queue with
    | [] => with_tracker u s
    | _ =>
        let q := fold_left (fun q c => snd (CheckQueue.remove_from_completed q c))
                   channels_to_queue (check_queue s) in
        with_queue (snd (CheckQueue.add_channels q channels_to_queue 10))
          (with_tracker u s)
    end.

(** [queue_channel(channel_id, priority=10)]. *)
Definition queue_channel (s : service) (channel_id priority : Z) : bool * service :=
  let '(ok, q) := CheckQueue.add_channel (check_queue s) channel_id priority in
  (ok, with_queue q s).

(** [queue_channels(channel_ids, priority=10)]. *)
Definition queue_channels (s : service) (channel_ids : list Z) (priority : Z)
    : Z * service :=
  let '(added, q) := CheckQueue.add_channels (check_queue s) channel_ids priority in
  (added, with_queue q s).

(** [clear_queue()]. *)
Definition clear_queue (s : service) : service :=
  with_queue (CheckQueueOps.clear (check_queue s)) s.

(** [trigger_global_action()]; [running] is [self.running]. *)
Definition trigger_global_action (running : bool) (now stamp : datetime)
    (ext : automation) (s : service) : bool * service :=
  if running then (true, run_and_mark now stamp ext s) else (false, s).

(** One turn of [_worker_loop]: take the next channel, if any, and check
    it. *)
Definition worker_iteration (a : api) (now : datetime) (s : service) : service :=
  match CheckQueue.get_next_channel (check_queue s) with
  | (Some channel_id, q) => snd (_check_channel a now (with_queue q s) channel_id)
  | (None, _) => s
  end.

(** One turn of [_scheduler_loop]. [triggered] is the result of the wait
    on [check_trigger], [config_changed] the state of that event. An
    exception of the schedule check is logged and the loop goes on. *)
Definition scheduler_iteration (triggered config_changed : bool)
    (now stamp : datetime) (ext : automation) (s : service) : service :=
  let s1 :=
    if triggered && negb config_changed && negb (global_action_in_progress s)
    then _queue_updated_channels now s else s in
  if negb (global_action_in_progress s1) then
    match _check_global_schedule now stamp ext s1 with
    | Some s2 => s2
    | None => s1
    end
  else s1.

(** [StreamCheckerService()] with configuration [c], the tracker state
    [u] read from its file and a queue of bound [max_size]. *)
Definition new_service (c : config) (u : Tracker.updates) (max_size : Z) : service :=
  {| cfg := c; update_tracker := u; check_queue := CheckQueue.init max_size;
     checking := false; global_action_in_progress := false;
     global_actions := 0 |}.

(** The entry points through which the loops and the callers of the
    service reach the queue and the tracker, each run to its end. *)
Inductive event :=
| Worker (a : api) (now : datetime)
| Scheduler (triggered config_changed : bool) (now stamp : datetime)
    (ext : automation)
| QueueChannel (channel_id priority : Z)
| QueueChannels (channel_ids : list Z) (priority : Z)
| ClearQueue
| TriggerGlobalAction (running : bool) (now stamp : datetime) (ext : automation)
| MarkChannelsUpdated (now : datetime) (channel_ids : list Z)
    (counts : option (gmap Z Z)).

Definition handle (s : service) (e : event) : service :=
  match e with
  | Worker a now => worker_iteration a now s
  | Scheduler triggered changed now stamp ext =>
      scheduler_iteration triggered changed now stamp ext s
  | QueueChannel c p => snd (queue_channel s c p)
  | QueueChannels cs p => snd (queue_channels s cs p)
  | ClearQueue => clear_queue s
  | TriggerGlobalAction running now stamp ext =>
      snd (trigger_global_action running now stamp ext s)
  | MarkChannelsUpdated now cs counts =>
      with_tracker
        (Tracker.mark_channels_updated now (update_tracker s) cs None counts) s
  end.

(** [re.sub(r'[^a-zA-Z0-9 ./_\-()]+', '', text)] keeps these characters. *)
Definition allowed_char (c : ascii) : bool :=
  let n := nat_of_ascii c in
  (Nat.leb 97 n && Nat.leb n 122) || (Nat.leb 65 n && Nat.leb n 90) ||
  (Nat.leb 48 n && Nat.leb n 57) ||
  Ascii.eqb c " " || Ascii.eqb c "." || Ascii.eqb c "/" || Ascii.eqb c "_" ||
  Ascii.eqb c "-" || Ascii.eqb c "(" || Ascii.eqb c ")".

(** The sanitising of [updates['stream_analysis']['user_agent']] in
    [update_config]. *)
Definition sanitize_user_agent (user_agent : string) : string :=
  let sanitized :=
    Py.strip (take 200 (List.filter allowed_char (list_ascii_of_string user_agent))) in
  match sanitized with
  | [] => "VLC/3.0.14"
  | _ => string_of_list_ascii sanitized
  end.

End ServiceOps.
(** * Properties *)

Import Samples.

(** ** Dictionaries *)

Section DictFacts.
Context {V : Type}.
Implicit Types (d : list (Z * V)) (k : Z) (v : V).

Lemma dict_get_set_eq d k v : PyDict.get k (PyDict.set k v d) = Some v.
Proof.
  induction d as [|[k' v'] d IH]; simpl.
  - now rewrite Z.eqb_refl.
  - destruct (Z.eqb k k') eqn:E; simpl; rewrite E; auto.
Qed.

Lemma dict_get_set_ne d k k' v :
  k <> k' -> PyDict.get k' (PyDict.set k v d) = PyDict.get k' d.
Proof.
  intros Hne. induction d as [|[k0 v0] d IH]; simpl.
  - destruct (Z.eqb k' k) eqn:E; auto. apply Z.eqb_eq in E. congruence.
  - destruct (Z.eqb k k0) eqn:E; simpl.
    + apply Z.eqb_eq in E. subst k0.
      destruct (Z.eqb k' k) eqn:E'; auto.
      apply Z.eqb_eq in E'. congruence.
    + now rewrite IH.
Qed.
End DictFacts.

(** ** The update tracker *)

Section TrackerFacts.
Import Clock Tracker.

Lemma get_and_clear_loop_uncapped now entries acc :
  get_and_clear_loop None now entries acc =
  (map (handed_out now) entries, (acc ++ flagged entries)%list).
Proof.
  revert acc. induction entries as [|[k i] rest IH]; intros acc; simpl.
  - unfold flagged. simpl. now rewrite app_nil_r.
  - unfold handed_out at 1. simpl.
    destruct (needs_check_set i) eqn:E.
    + rewrite IH. unfold flagged. simpl. rewrite E. simpl.
      now rewrite <- app_assoc.
    + rewrite IH. unfold flagged. simpl. now rewrite E.
Qed.

Lemma handed_out_clear now e : needs_check_set (snd (handed_out now e)) = false.
Proof.
  unfold handed_out. destruct (needs_check_set (snd e)) eqn:E; auto.
Qed.

Lemma flagged_none entries :
  (forall e, In e entries -> needs_check_set (snd e) = false) ->
  flagged entries = [].
Proof.
  induction entries as [|e rest IH]; intros H; auto.
  unfold flagged in *. simpl. rewrite (H e (or_introl eq_refl)).
  apply IH. intros e' He'. apply H. now right.
Qed.

Lemma updated_record_shape old ts count :
  updated_record old ts count =
  {| last_update := Some ts; needs_check := Some true;
     stream_count := Some count;
     checked_stream_ids := Some (kept_checked_ids old);
     last_check := None; force_check := None; queued_at := None |}.
Proof. destruct old; reflexivity. Qed.

Lemma mark_loop_other ts counts ids : forall chans k,
  ~ In k ids ->
  PyDict.get k (mark_loop ts counts ids chans) = PyDict.get k chans.
Proof.
  induction ids as [|c rest IH]; intros chans k Hk; simpl; auto.
  rewrite IH by (intro; apply Hk; now right).
  apply dict_get_set_ne. intro; apply Hk; now left.
Qed.

Lemma mark_loop_marked ts counts ids : forall chans k,
  In k ids ->
  PyDict.get k (mark_loop ts counts ids chans) =
  Some (updated_record (PyDict.get k chans) ts (counts !! k)).
Proof.
  induction ids as [|c rest IH]; intros chans k Hk; simpl; [destruct Hk|].
  destruct (Z.eq_dec c k) as [->|Hne].
  - destruct (in_dec Z.eq_dec k rest) as [Hin|Hnin].
    + rewrite IH by assumption. rewrite dict_get_set_eq.
      now rewrite !updated_record_shape.
    + rewrite mark_loop_other by assumption. apply dict_get_set_eq.
  - destruct Hk as [Heq|Hin]; [congruence|].
    rewrite IH by assumption. now rewrite dict_get_set_ne.
Qed.
End TrackerFacts.

(** C1. Atomic get-and-clear: called without a cap,
    [get_and_clear_channels_needing_check] returns exactly the ids of the
    channels whose [needs_check] flag is set, in dict order; every such
    entry gets [needs_check = False] (and its [queued_at] stamp) while the
    other entries and the global timestamp are untouched; no entry is left
    flagged, and a second call made right after returns the empty list. *)
Theorem get_and_clear_is_atomic (now now' : Clock.datetime) (u : Tracker.updates) :
  let r := Tracker.get_and_clear_channels_needing_check now u None in
  fst r = map fst (List.filter
                     (fun e => match Tracker.needs_check (snd e) with
                               | Some b => b | None => false end)
                     (Tracker.channels_or_empty u)) /\
  Tracker.channels_or_empty (snd r) =
    map (handed_out now) (Tracker.channels_or_empty u) /\
  Tracker.last_global_check (snd r) = Tracker.last_global_check u /\
  (forall k i, In (k, i) (Tracker.channels_or_empty (snd r)) ->
     Tracker.needs_check i <> Some true) /\
  fst (Tracker.get_and_clear_channels_needing_check now' (snd r) None) = [].
Proof.
  unfold Tracker.get_and_clear_channels_needing_check, Tracker.channels_or_empty.
  destruct u as [[entries|] lg]; simpl.
  - rewrite get_and_clear_loop_uncapped. simpl.
    rewrite get_and_clear_loop_uncapped. simpl.
    assert (Hclear : forall e, In e (map (handed_out now) entries) ->
                       Tracker.needs_check_set (snd e) = false).
    { intros e He. apply in_map_iff in He as [e0 [<- _]]. apply handed_out_clear. }
    repeat split; auto.
    + intros k i Hin Hflag. specialize (Hclear _ Hin). simpl in Hclear.
      unfold Tracker.needs_check_set in Hclear. now rewrite Hflag in Hclear.
    + now apply flagged_none.
  - repeat split; auto; intros k i [].
Qed.

(** C9. Marking channels updated: for every channel id passed to
    [mark_channel_updated] or [mark_channels_updated], the channel's
    record afterwards has [needs_check = True], the given timestamp as
    [last_update], the given stream count as [stream_count], and the
    [checked_stream_ids] list it had before (the empty list when it had
    none). *)
Theorem mark_updated_sets_flag_keeps_checked_ids
    (now : Clock.datetime) (u : Tracker.updates) (ts : option Clock.datetime)
    (channel_ids : list Z) (counts : option (gmap Z Z)) (count : option Z)
    (channel_id : Z) :
  In channel_id channel_ids ->
  let stamp := match ts with Some t => t | None => now end in
  let kept := Tracker.get_checked_stream_ids u channel_id in
  (exists r,
     PyDict.get channel_id
       (Tracker.channels_or_empty
          (Tracker.mark_channel_updated now u channel_id ts count)) = Some r /\
     Tracker.needs_check r = Some true /\
     Tracker.last_update r = Some stamp /\
     Tracker.stream_count r = Some count /\
     Tracker.checked_stream_ids r = Some kept) /\
  (exists r,
     PyDict.get channel_id
       (Tracker.channels_or_empty
          (Tracker.mark_channels_updated now u channel_ids ts counts)) = Some r /\
     Tracker.needs_check r = Some true /\
     Tracker.last_update r = Some stamp /\
     Tracker.stream_count r =
       Some (match counts with Some m => m !! channel_id | None => None end) /\
     Tracker.checked_stream_ids r = Some kept).
Proof.
  intros Hin stamp kept.
  assert (Hkept : kept = kept_checked_ids
                           (PyDict.get channel_id (Tracker.channels_or_empty u))).
  { unfold kept, Tracker.get_checked_stream_ids, kept_checked_ids.
    destruct (PyDict.get channel_id (Tracker.channels_or_empty u)); reflexivity. }
  split.
  - eexists. split.
    + unfold Tracker.mark_channel_updated, Tracker.with_channels,
        Tracker.channels_or_empty at 1. simpl.
      rewrite dict_get_set_eq, updated_record_shape. reflexivity.
    + simpl. rewrite Hkept. auto.
  - eexists. split.
    + unfold Tracker.mark_channels_updated, Tracker.with_channels,
        Tracker.channels_or_empty at 1. simpl.
      rewrite mark_loop_marked by assumption.
      rewrite updated_record_shape. reflexivity.
    + simpl. rewrite Hkept. repeat split; auto.
      destruct counts; auto.
Qed.



Lemma mark_updated_sets_flag_keeps_checked_ids_witness :
  exists r,
    PyDict.get 42
      (Tracker.channels_or_empty
         (Tracker.mark_channels_updated noon sample_updates [5; 42] None
            (Some {[ 42 := 3 ]}))) = Some r /\
    Tracker.needs_check r = Some true /\
    Tracker.last_update r = Some noon /\
    Tracker.stream_count r = Some (Some 3) /\
    Tracker.checked_stream_ids r = Some [7; 9].
Proof.
  destruct (mark_updated_sets_flag_keeps_checked_ids noon sample_updates None
              [5; 42] (Some {[ 42 := 3 ]}) None 42) as [_ H].
  - simpl. auto.
  - exact H.
Defined.

(** C10. For a channel already present in the tracker,
    [mark_channel_updated] and [mark_channels_updated] replace the whole
    record by one holding only [last_update], [needs_check],
    [stream_count] and [checked_stream_ids]: a [force_check] flag, a
    [last_check] timestamp (and a [queued_at] stamp) recorded before are
    gone, so the channel is no longer marked for a forced check. *)
Theorem mark_updated_drops_force_check_and_last_check
    (now : Clock.datetime) (u : Tracker.updates) (ts : option Clock.datetime)
    (channel_ids : list Z) (counts : option (gmap Z Z)) (count : option Z)
    (channel_id : Z) (old : Tracker.channel_info) :
  PyDict.get channel_id (Tracker.channels_or_empty u) = Some old ->
  In channel_id channel_ids ->
  let stamp := match ts with Some t => t | None => now end in
  let kept := match Tracker.checked_stream_ids old with
              | Some l => l | None => [] end in
  let u1 := Tracker.mark_channel_updated now u channel_id ts count in
  let u2 := Tracker.mark_channels_updated now u channel_ids ts counts in
  PyDict.get channel_id (Tracker.channels_or_empty u1) =
    Some {| Tracker.last_update := Some stamp;
            Tracker.needs_check := Some true;
            Tracker.stream_count := Some count;
            Tracker.checked_stream_ids := Some kept;
            Tracker.last_check := None; Tracker.force_check := None;
            Tracker.queued_at := None |} /\
  PyDict.get channel_id (Tracker.channels_or_empty u2) =
    Some {| Tracker.last_update := Some stamp;
            Tracker.needs_check := Some true;
            Tracker.stream_count :=
              Some (match counts with Some m => m !! channel_id | None => None end);
            Tracker.checked_stream_ids := Some kept;
            Tracker.last_check := None; Tracker.force_check := None;
            Tracker.queued_at := None |} /\
  Tracker.should_force_check u1 channel_id = false /\
  Tracker.should_force_check u2 channel_id = false.
Proof.
  intros Hold Hin stamp kept u1 u2.
  assert (H1 : PyDict.get channel_id (Tracker.channels_or_empty u1) =
               Some (Tracker.updated_record (Some old) stamp count)).
  { unfold u1, Tracker.mark_channel_updated, Tracker.with_channels,
      Tracker.channels_or_empty at 1. simpl.
    now rewrite dict_get_set_eq, Hold. }
  assert (H2 : PyDict.get channel_id (Tracker.channels_or_empty u2) =
               Some (Tracker.updated_record (Some old) stamp
                       (match counts with Some m => m !! channel_id | None => None end))).
  { unfold u2, Tracker.mark_channels_updated, Tracker.with_channels,
      Tracker.channels_or_empty at 1. simpl.
    rewrite mark_loop_marked by assumption. rewrite Hold.
    destruct counts; reflexivity. }
  unfold Tracker.should_force_check. rewrite H1, H2.
  rewrite !updated_record_shape. simpl. auto.
Qed.

Lemma mark_updated_drops_force_check_and_last_check_witness :
  Tracker.should_force_check sample_updates 42 = true /\
  Tracker.should_force_check
    (Tracker.mark_channel_updated noon sample_updates 42 None (Some 3)) 42 = false /\
  Tracker.should_force_check
    (Tracker.mark_channels_updated noon sample_updates [42] None None) 42 = false.
Proof.
  split; [reflexivity|].
  destruct (mark_updated_drops_force_check_and_last_check noon sample_updates
              None [42] None (Some 3) 42
              {| Tracker.last_update := Some early;
                 Tracker.needs_check := Some false;
                 Tracker.stream_count := Some (Some 2);
                 Tracker.checked_stream_ids := Some [7; 9];
                 Tracker.last_check := Some early;
                 Tracker.force_check := Some true;
                 Tracker.queued_at := Some early |})
    as (_ & _ & Hf1 & Hf2).
  - reflexivity.
  - simpl. auto.
  - split; assumption.
Defined.

(** ** The check queue *)

#[local] Set Warnings "-clear-no-such-hyp".

Section QueueFacts.
Import CheckQueue.

Lemma queue_inv_init n : queue_inv (init n).
Proof.
  unfold queue_inv, exclusive. simpl. repeat split; try set_solver.
  constructor.
Qed.

Lemma queue_inv_add_channel q c p :
  queue_inv q -> queue_inv (snd (add_channel q c p)).
Proof.
  intros Hq. unfold add_channel.
  destruct (bool_decide (c ∉ queued q) && bool_decide (c ∉ in_progress q) &&
            bool_decide (c ∉ completed q)) eqn:Hcond; simpl; [|assumption].
  apply andb_prop in Hcond as [Hcond H3]. apply andb_prop in Hcond as [H1 H2].
  apply bool_decide_eq_true in H1, H2, H3.
  destruct (full q); simpl; [assumption|].
  destruct Hq as (Hnd & Hsub & Hq1 & Hq2 & Hq3).
  unfold queue_inv, exclusive. simpl. rewrite map_app. simpl.
  repeat split; try set_solver.
  - apply NoDup_app. split; [assumption|]. split.
    + intros x Hx Hx'. apply list_elem_of_singleton in Hx'. subst x.
      apply H1. apply Hsub. apply list_elem_of_In. assumption.
    + apply NoDup_singleton.
  - intros x Hx. apply in_app_or in Hx as [Hx|[->|[]]].
    + apply Hsub in Hx. set_solver.
    + set_solver.
Qed.

Lemma queue_inv_add_channels cs : forall q p,
  queue_inv q -> queue_inv (snd (add_channels q cs p)).
Proof.
  induction cs as [|c rest IH]; intros q p Hq; simpl; [assumption|].
  pose proof (queue_inv_add_channel q c p Hq) as H1.
  destruct (add_channel q c p) as [ok q1]. simpl in H1.
  specialize (IH q1 p H1).
  destruct (add_channels q1 rest p) as [added q2]. assumption.
Qed.

Lemma queue_inv_remove_from_completed q c :
  queue_inv q -> queue_inv (snd (remove_from_completed q c)).
Proof.
  intros Hq. unfold remove_from_completed.
  case_bool_decide; simpl; [|assumption].
  destruct Hq as (Hnd & Hsub & Hq1 & Hq2 & Hq3).
  unfold queue_inv, exclusive. simpl. repeat split; try assumption; set_solver.
Qed.

Lemma queue_inv_get_next_channel q :
  queue_inv q -> queue_inv (snd (get_next_channel q)).
Proof.
  intros Hq. unfold get_next_channel.
  destruct (queue q) as [|[p c] buf] eqn:Hbuf; simpl; [assumption|].
  destruct Hq as (Hnd & Hsub & Hq1 & Hq2 & Hq3).
  rewrite Hbuf in Hnd, Hsub. simpl in Hnd, Hsub. apply NoDup_cons in Hnd as [Hc Hnd].
  assert (Hcq : c ∈ queued q) by (apply Hsub; now left).
  unfold queue_inv, exclusive. simpl. repeat split; try assumption; try set_solver.
  intros x Hx. assert (x <> c).
  { intros ->. apply Hc. apply list_elem_of_In. assumption. }
  specialize (Hsub x (or_intror Hx)). set_solver.
Qed.

Lemma queue_inv_mark_completed q c :
  c ∉ queued q -> queue_inv q -> queue_inv (mark_completed q c).
Proof.
  intros Hc (Hnd & Hsub & Hq1 & Hq2 & Hq3).
  unfold queue_inv, exclusive. simpl. repeat split; try assumption; set_solver.
Qed.

Lemma queue_inv_mark_failed now q c e :
  queue_inv q -> queue_inv (mark_failed now q c e).
Proof.
  intros (Hnd & Hsub & Hq1 & Hq2 & Hq3).
  unfold queue_inv, exclusive. simpl. repeat split; try assumption; set_solver.
Qed.

Lemma queue_inv_run ops : forall q,
  queue_inv q -> completes_unqueued q ops -> queue_inv (run q ops).
Proof.
  induction ops as [|o rest IH]; intros q Hq Hops; simpl in *; [assumption|].
  destruct Hops as [Ho Hrest]. apply IH; [|assumption].
  destruct o; simpl.
  - now apply queue_inv_add_channel.
  - now apply queue_inv_add_channels.
  - now apply queue_inv_remove_from_completed.
  - now apply queue_inv_get_next_channel.
  - now apply queue_inv_mark_completed.
  - now apply queue_inv_mark_failed.
Qed.
End QueueFacts.

(** C2 (as amended). Starting from a fresh [StreamCheckQueue], after any
    sequence of [add_channel], [add_channels], [get_next_channel],
    [mark_completed], [mark_failed] and [remove_from_completed] calls in
    which [mark_completed] is never applied to a channel that is waiting in
    the queue at that moment, no channel id is in more than one of the
    [queued], [in_progress] and [completed] sets. *)
Theorem queue_states_exclusive (size : Z) (ops : list CheckQueue.op) :
  CheckQueue.completes_unqueued (CheckQueue.init size) ops ->
  CheckQueue.exclusive (CheckQueue.run (CheckQueue.init size) ops).
Proof.
  intros Hops.
  apply (queue_inv_run ops (CheckQueue.init size) (queue_inv_init size) Hops).
Qed.

Lemma queue_states_exclusive_witness :
  CheckQueue.exclusive (CheckQueue.run (CheckQueue.init 1000) sample_ops).
Proof.
  apply (queue_states_exclusive 1000 sample_ops).
  vm_compute. repeat split; try (intros H; discriminate H).
Defined.

(** C2, the claim as stated fails: [mark_completed] adds the channel to
    [completed] whether or not it was in progress, and leaves [queued]
    alone; called on a waiting channel it puts the channel in two sets. *)
Lemma queue_exclusivity_counterexample :
  let q := CheckQueue.run (CheckQueue.init 1000) stray_completion in
  (1 ∈ CheckQueue.queued q) /\ (1 ∈ CheckQueue.completed q) /\
  ~ CheckQueue.exclusive q.
Proof.
  assert (Hq : (1 ∈ CheckQueue.queued
                  (CheckQueue.run (CheckQueue.init 1000) stray_completion)))
    by (vm_compute; reflexivity).
  assert (Hc : (1 ∈ CheckQueue.completed
                  (CheckQueue.run (CheckQueue.init 1000) stray_completion)))
    by (vm_compute; reflexivity).
  simpl. repeat split; try assumption.
  intros (_ & Hdisj & _). exact (Hdisj 1 Hq Hc).
Qed.

(** ** The scorer *)

Section RoundingFacts.
Import Scorer.
Local Open Scope Q_scope.




End RoundingFacts.

Section ScorerFacts.
Import Py Scorer.
Local Open Scope Q_scope.



End ScorerFacts.




(** ** Printing and reading integers *)

Section DecimalFacts.
Import Py.
Local Open Scope Z_scope.

Lemma numeric_char_facts c :
  numeric_char c = true ->
  is_space c = false /\ Ascii.eqb c "x"%char = false.
Proof.
  destruct c as [[|] [|] [|] [|] [|] [|] [|] [|]]; vm_compute; intuition congruence.
Qed.

Lemma digit_char_facts c v :
  digit_val c = Some v ->
  Ascii.eqb c "_"%char = false /\ Ascii.eqb c "-"%char = false /\
  Ascii.eqb c "+"%char = false /\ numeric_char c = true.
Proof.
  destruct c as [[|] [|] [|] [|] [|] [|] [|] [|]]; vm_compute; intuition congruence.
Qed.

Lemma parse_printed_digits d : forall acc,
  parse_digits acc true (list_ascii_of_string (NilEmpty.string_of_uint d)) =
  Some (digits_value acc d).
Proof.
  induction d; intros acc; simpl; try reflexivity; apply IHd.
Qed.

Lemma parse_printed_uint d :
  parse_digits 0 false (list_ascii_of_string (NilZero.string_of_uint d)) =
  Some (digits_value 0 d).
Proof.
  destruct d; simpl; try reflexivity; apply parse_printed_digits.
Qed.

Lemma of_uint_acc_value d : forall acc,
  Z.pos (Pos.of_uint_acc d acc) = digits_value (Z.pos acc) d.
Proof.
  induction d; intros acc; simpl; try reflexivity; rewrite IHd; f_equal; lia.
Qed.

Lemma of_uint_value d : Z.of_uint d = digits_value 0 d.
Proof.
  unfold Z.of_uint.
  induction d; simpl; try reflexivity; try assumption;
    rewrite of_uint_acc_value; reflexivity.
Qed.

Lemma printed_digits_numeric d :
  Forall (fun c => numeric_char c = true)
         (list_ascii_of_string (NilEmpty.string_of_uint d)).
Proof. induction d; simpl; constructor; auto. Qed.

Lemma printed_uint_numeric d :
  Forall (fun c => numeric_char c = true)
         (list_ascii_of_string (NilZero.string_of_uint d)).
Proof.
  destruct d; try apply printed_digits_numeric.
  simpl. repeat constructor.
Qed.

Lemma printed_uint_starts_with_digit d :
  exists c r v, list_ascii_of_string (NilZero.string_of_uint d) = c :: r /\
                digit_val c = Some v.
Proof. destruct d; simpl; do 3 eexists; split; reflexivity. Qed.

Lemma str_numeric n :
  Forall (fun c => numeric_char c = true) (list_ascii_of_string (str n)).
Proof.
  unfold str, NilZero.string_of_int.
  destruct (Z.to_int n); [apply printed_uint_numeric|].
  simpl. constructor; [reflexivity|apply printed_uint_numeric].
Qed.

Lemma lstrip_id l :
  Forall (fun c => is_space c = false) l -> lstrip l = l.
Proof. destruct 1 as [|c r Hc _]; simpl; [reflexivity|now rewrite Hc]. Qed.

Lemma strip_id l :
  Forall (fun c => is_space c = false) l -> strip l = l.
Proof.
  intros H. unfold strip. rewrite (lstrip_id l H).
  rewrite lstrip_id; [apply rev_involutive|].
  now apply List.Forall_rev.
Qed.

(** Reading back a printed integer gives the integer. *)
Lemma int_str n : Py.int (str n) = Some n.
Proof.
  unfold Py.int. rewrite strip_id.
  2:{ eapply Forall_impl; [apply str_numeric|].
      intros c Hc. now apply numeric_char_facts. }
  rewrite <- (DecimalZ.of_to n) at 2.
  unfold str, NilZero.string_of_int, Z.of_int.
  destruct (Z.to_int n) as [d|d].
  - destruct (printed_uint_starts_with_digit d) as (c & r & v & Hcr & Hv).
    pose proof (parse_printed_uint d) as Hp. rewrite Hcr in *.
    destruct (digit_char_facts c v Hv) as (_ & -> & -> & _).
    rewrite Hp. now rewrite of_uint_value.
  - simpl. rewrite parse_printed_uint. simpl. now rewrite of_uint_value.
Qed.

(** Splitting a text at its only ['x']. *)
Lemma split_no_x s :
  Forall (fun c => Ascii.eqb c "x"%char = false) (list_ascii_of_string s) ->
  split "x"%char s = [s].
Proof.
  induction s as [|a s IH]; simpl; intros H; [reflexivity|].
  inversion H as [|? ? Ha Hs]; subst. rewrite Ha, IH by assumption. reflexivity.
Qed.

Lemma split_at_x a b :
  Forall (fun c => Ascii.eqb c "x"%char = false) (list_ascii_of_string a) ->
  Forall (fun c => Ascii.eqb c "x"%char = false) (list_ascii_of_string b) ->
  split "x"%char (a ++ String "x"%char b) = [a; b].
Proof.
  intros Ha Hb. induction a as [|c a IH]; simpl.
  - now rewrite split_no_x.
  - inversion Ha as [|? ? Hc Ha']; subst. rewrite Hc, IH by assumption. reflexivity.
Qed.

Lemma contains_x a b : contains "x" (a ++ String "x"%char b) = true.
Proof.
  induction a as [|c a IH]; simpl.
  - destruct b; reflexivity.
  - rewrite IH. apply orb_true_r.
Qed.

Lemma str_no_x n :
  Forall (fun c => Ascii.eqb c "x"%char = false) (list_ascii_of_string (str n)).
Proof.
  eapply Forall_impl; [apply str_numeric|].
  intros c Hc. now apply numeric_char_facts.
Qed.

(** A resolution written by the analysis is read back by the scorer. *)
Lemma parse_resolution_text w h :
  Scorer.parse_resolution (PStr (resolution_text w h)) = Some (w, h).
Proof.
  unfold Scorer.parse_resolution, resolution_text.
  change (str w ++ "x" ++ str h)%string with (str w ++ String "x"%char (str h))%string.
  rewrite contains_x, split_at_x by apply str_no_x.
  simpl. now rewrite !int_str.
Qed.
End DecimalFacts.

(** ** The per-channel check *)

Section CheckFacts.
Import Py Scorer Service.















End CheckFacts.






(** ** The global schedule *)

Section ScheduleFacts.
Import Clock Service.
Local Open Scope Z_scope.

Lemma same_date_toordinal a b : same_date a b = true -> toordinal a = toordinal b.
Proof.
  unfold same_date, toordinal. intros H.
  apply andb_prop in H as [H Hd]. apply andb_prop in H as [Hy Hm].
  apply Z.eqb_eq in Hy, Hm, Hd. now rewrite Hy, Hm, Hd.
Qed.

Lemma same_date_trans a b c :
  same_date a b = true -> same_date c b = true -> same_date a c = true.
Proof.
  unfold same_date. intros H1 H2.
  apply andb_prop in H1 as [H1 Hd1]. apply andb_prop in H1 as [Hy1 Hm1].
  apply andb_prop in H2 as [H2 Hd2]. apply andb_prop in H2 as [Hy2 Hm2].
  apply Z.eqb_eq in Hy1, Hm1, Hd1, Hy2, Hm2, Hd2.
  rewrite Hy1, Hm1, Hd1, Hy2, Hm2, Hd2, !Z.eqb_refl. reflexivity.
Qed.

Lemma replace_hm_valid now sch :
  valid_time sch ->
  replace_hm now (sched_hour sch) (sched_minute sch) =
  Some {| year := year now; month := month now; day := day now;
          hour := sched_hour sch; minute := sched_minute sch;
          second := 0; microsecond := 0 |}.
Proof.
  intros [Hh Hm]. unfold replace_hm.
  replace (0 <=? sched_hour sch) with true by (symmetry; apply Z.leb_le; lia).
  replace (sched_hour sch <? 24) with true by (symmetry; apply Z.ltb_lt; lia).
  replace (0 <=? sched_minute sch) with true by (symmetry; apply Z.leb_le; lia).
  replace (sched_minute sch <? 60) with true by (symmetry; apply Z.ltb_lt; lia).
  reflexivity.
Qed.

(** The distance to today's scheduled time is a difference of times of day. *)
Lemma sub_scheduled_today now sch :
  Clock.sub now {| year := year now; month := month now; day := day now;
                   hour := sched_hour sch; minute := sched_minute sch;
                   second := 0; microsecond := 0 |}
  = time_of_day now - scheduled_time sch.
Proof.
  unfold Clock.sub, toordinal, time_of_day, scheduled_time. simpl. lia.
Qed.

Lemma run_and_mark_effect now stamp ext s :
  cfg (run_and_mark now stamp ext s) = cfg s /\
  global_actions (run_and_mark now stamp ext s) = S (global_actions s) /\
  Tracker.get_last_global_check (update_tracker (run_and_mark now stamp ext s))
    = Some stamp.
Proof.
  unfold run_and_mark, _perform_global_action, _queue_all_channels.
  destruct (all_channels ext) as [[|c cs]|]; simpl; auto.
Qed.

(** Daily frequency: nothing happens on the day of the last global check. *)
Lemma daily_idle_same_day now stamp ext s last :
  enabled (global_check_schedule (cfg s)) = true ->
  has_scheduled_action (pipeline_mode (cfg s)) = true ->
  frequency (global_check_schedule (cfg s)) = "daily"%string ->
  valid_time (global_check_schedule (cfg s)) ->
  Tracker.get_last_global_check (update_tracker s) = Some last ->
  same_date last now = true ->
  _check_global_schedule now stamp ext s = Some s.
Proof.
  intros He Hm Hf Hv Hl Hd. unfold _check_global_schedule.
  rewrite He, Hm, Hl, Hf, (replace_hm_valid now _ Hv), Hd. reflexivity.
Qed.

(** Daily frequency: a check that is due runs once and stamps the tracker. *)
Lemma daily_due_runs now stamp ext s last :
  enabled (global_check_schedule (cfg s)) = true ->
  has_scheduled_action (pipeline_mode (cfg s)) = true ->
  frequency (global_check_schedule (cfg s)) = "daily"%string ->
  valid_time (global_check_schedule (cfg s)) ->
  Tracker.get_last_global_check (update_tracker s) = Some last ->
  same_date last now = false ->
  scheduled_time (global_check_schedule (cfg s)) <= time_of_day now ->
  _check_global_schedule now stamp ext s = Some (run_and_mark now stamp ext s).
Proof.
  intros He Hm Hf Hv Hl Hd Hs. unfold _check_global_schedule.
  rewrite He, Hm, Hl, Hf, (replace_hm_valid now _ Hv), Hd. simpl.
  unfold geb. rewrite sub_scheduled_today.
  replace (0 <=? _) with true by (symmetry; apply Z.leb_le; lia).
  reflexivity.
Qed.

Lemma idle_rest_of_day now ticks : forall s last,
  enabled (global_check_schedule (cfg s)) = true ->
  has_scheduled_action (pipeline_mode (cfg s)) = true ->
  frequency (global_check_schedule (cfg s)) = "daily"%string ->
  valid_time (global_check_schedule (cfg s)) ->
  Tracker.get_last_global_check (update_tracker s) = Some last ->
  same_date last now = true ->
  Forall (later_that_day now) ticks ->
  check_schedule_repeatedly ticks s = Some s.
Proof.
  induction ticks as [|t rest IH]; intros s last He Hm Hf Hv Hl Hd Hticks;
    simpl; [reflexivity|].
  inversion Hticks as [|? ? (Ht & _ & _) Hrest]; subst.
  rewrite (daily_idle_same_day _ _ _ s last) by
    (try assumption; eapply same_date_trans; eassumption).
  eapply IH; eassumption.
Qed.

(** However often the schedule is evaluated during the day on which a
    daily check is due, the global action runs once. *)
Lemma daily_runs_once now last t rest s :
  enabled (global_check_schedule (cfg s)) = true ->
  has_scheduled_action (pipeline_mode (cfg s)) = true ->
  frequency (global_check_schedule (cfg s)) = "daily"%string ->
  valid_time (global_check_schedule (cfg s)) ->
  Tracker.get_last_global_check (update_tracker s) = Some last ->
  two_days_before last now ->
  scheduled_time (global_check_schedule (cfg s)) <= time_of_day now ->
  Forall (later_that_day now) (t :: rest) ->
  check_schedule_repeatedly (t :: rest) s =
    Some (run_and_mark (t_now t) (t_stamp t) (t_ext t) s).
Proof.
  intros He Hm Hf Hv Hl [Hord _] Hs Hticks.
  inversion Hticks as [|? ? (Ht & Hst & Hle) Hrest]; subst. simpl.
  assert (Hd : same_date last (t_now t) = false).
  { destruct (same_date last (t_now t)) eqn:E; [|reflexivity].
    apply same_date_toordinal in E, Ht. lia. }
  rewrite (daily_due_runs _ _ _ s last) by (try assumption; lia).
  destruct (run_and_mark_effect (t_now t) (t_stamp t) (t_ext t) s)
    as (Hcfg & _ & Hlast).
  eapply idle_rest_of_day with (now := now); rewrite ?Hcfg; eassumption.
Qed.
End ScheduleFacts.

(** C5. No duplicate global-action stacking: with the schedule enabled in
    a pipeline mode that has scheduled actions, daily frequency, a last
    global check two days before [now] and a scheduled time at or before
    [now], five invocations of [_check_global_schedule] in sequence (on
    that day, from [now] on) perform the global action exactly once: the
    first one runs it and records its timestamp through
    [mark_global_check], the four others find the check already done. *)
Theorem no_duplicate_global_action
    (now last : Clock.datetime) (ticks : list Service.tick) (s : Service.service) :
  let sch := Service.global_check_schedule (Service.cfg s) in
  Service.enabled sch = true ->
  Service.has_scheduled_action (Service.pipeline_mode (Service.cfg s)) = true ->
  Service.frequency sch = "daily"%string ->
  valid_time sch ->
  Tracker.get_last_global_check (Service.update_tracker s) = Some last ->
  two_days_before last now ->
  scheduled_time sch <= Clock.time_of_day now ->
  length ticks = 5%nat ->
  Forall (later_that_day now) ticks ->
  exists s',
    Service.check_schedule_repeatedly ticks s = Some s' /\
    Service.global_actions s' = S (Service.global_actions s) /\
    exists t, head ticks = Some t /\
      Tracker.get_last_global_check (Service.update_tracker s')
        = Some (Service.t_stamp t).
Proof.
  intros sch He Hm Hf Hv Hl H2 Hs Hlen Hticks.
  destruct ticks as [|t rest]; [discriminate|].
  rewrite (daily_runs_once now last t rest s) by assumption.
  destruct (run_and_mark_effect (Service.t_now t) (Service.t_stamp t)
              (Service.t_ext t) s) as (_ & Hn & Hlast).
  eexists. split; [reflexivity|]. split; [assumption|].
  exists t. split; [reflexivity|assumption].
Qed.

Lemma no_duplicate_global_action_witness :
  exists s',
    Service.check_schedule_repeatedly five_ticks stale_service = Some s' /\
    Service.global_actions s' = 1%nat.
Proof.
  destruct (no_duplicate_global_action at_three two_days_ago five_ticks stale_service)
    as (s' & Hrun & Hn & _).
  - reflexivity.
  - reflexivity.
  - reflexivity.
  - vm_compute. intuition discriminate.
  - reflexivity.
  - vm_compute. split; reflexivity.
  - vm_compute. discriminate.
  - reflexivity.
  - unfold five_ticks. simpl. repeat constructor; vm_compute; discriminate.
  - exists s'. split; assumption.
Defined.

(** C8. Fresh-start tolerance window: with the schedule enabled in a
    pipeline mode that has scheduled actions and no prior global-check
    timestamp, [_check_global_schedule] performs the global action if and
    only if the current time is within 10 minutes, either way, of today's
    scheduled hour and minute; then it records the timestamp, otherwise it
    changes nothing (no action, no timestamp). *)
Theorem fresh_start_window
    (now stamp : Clock.datetime) (ext : Service.automation) (s : Service.service) :
  let sch := Service.global_check_schedule (Service.cfg s) in
  Service.enabled sch = true ->
  Service.has_scheduled_action (Service.pipeline_mode (Service.cfg s)) = true ->
  valid_time sch ->
  Tracker.get_last_global_check (Service.update_tracker s) = None ->
  exists s',
    Service._check_global_schedule now stamp ext s = Some s' /\
    (within_ten_minutes sch now <->
       Service.global_actions s' = S (Service.global_actions s)) /\
    (within_ten_minutes sch now ->
       Tracker.get_last_global_check (Service.update_tracker s') = Some stamp) /\
    (~ within_ten_minutes sch now ->
       s' = s /\
       Tracker.get_last_global_check (Service.update_tracker s') = None).
Proof.
  intros sch He Hm Hv Hl. unfold Service._check_global_schedule.
  fold sch. rewrite He, Hm, Hl, (replace_hm_valid now sch Hv). simpl.
  unfold Service.within_window. rewrite sub_scheduled_today.
  destruct (Z.leb_spec (Z.abs (Clock.time_of_day now - scheduled_time sch))
              (10 * 60 * 1000000)) as [Hin|Hout].
  - destruct (run_and_mark_effect now stamp ext s) as (_ & Hn & Hlast).
    eexists. split; [reflexivity|]. unfold within_ten_minutes.
    split; [split; auto|]. split; [auto|].
    intros Hc. contradiction.
  - exists s. split; [reflexivity|]. unfold within_ten_minutes.
    split; [split; intros; lia|]. split; [intros; lia|].
    intros _. split; [reflexivity|assumption].
Qed.

Lemma fresh_start_window_witness :
  exists s',
    Service._check_global_schedule at_three (just_after 5) quiet_world
      fresh_service = Some s' /\
    Service.global_actions s' = 1%nat.
Proof.
  destruct (fresh_start_window at_three (just_after 5) quiet_world fresh_service)
    as (s' & Hrun & [Hact _] & _).
  - reflexivity.
  - reflexivity.
  - vm_compute. intuition discriminate.
  - reflexivity.
  - exists s'. split; [assumption|]. apply Hact. vm_compute. discriminate.
Defined.

(** ** The resolution component *)

(** C6 (as amended). The unweighted resolution component is a step
    function of the vertical resolution: for a resolution written
    [WIDTHxHEIGHT] it is 1.0 when the height is at least 1080, 0.7 when at
    least 720, 0.5 when at least 576 and 0.3 for every lower height, the
    height 0 of the [0x0] sentinel included; it is 0 only when the
    resolution cannot be read as two integers (["N/A"], a missing value). *)
Theorem resolution_component_steps (d : Scorer.stream_data) :
  let r := Py.get_or (Scorer.resolution d) (Py.PStr "N/A") in
  (forall w h : Z, r = Py.PStr (Py.resolution_text w h) ->
     (1080 <= h -> Scorer.resolution_score d = 1%Q) /\
     (720 <= h < 1080 -> Scorer.resolution_score d = (7 # 10)%Q) /\
     (576 <= h < 720 -> Scorer.resolution_score d = (5 # 10)%Q) /\
     (h < 576 -> Scorer.resolution_score d = (3 # 10)%Q)) /\
  (forall w h : Z, Scorer.parse_resolution r = Some (w, h) ->
     Scorer.resolution_score d = Scorer.height_score h /\
     (Scorer.resolution_score d = 1 \/ Scorer.resolution_score d = 7 # 10 \/
      Scorer.resolution_score d = 5 # 10 \/ Scorer.resolution_score d = 3 # 10)%Q) /\
  (Scorer.parse_resolution r = None -> Scorer.resolution_score d = 0%Q).
Proof.
  intros r. unfold Scorer.resolution_score. fold r.
  split; [|split].
  - intros w h ->. rewrite parse_resolution_text. unfold Scorer.height_score.
    repeat split; intros Hh.
    + replace (1080 <=? h) with true by (symmetry; apply Z.leb_le; lia).
      reflexivity.
    + replace (1080 <=? h) with false by (symmetry; apply Z.leb_gt; lia).
      replace (720 <=? h) with true by (symmetry; apply Z.leb_le; lia).
      reflexivity.
    + replace (1080 <=? h) with false by (symmetry; apply Z.leb_gt; lia).
      replace (720 <=? h) with false by (symmetry; apply Z.leb_gt; lia).
      replace (576 <=? h) with true by (symmetry; apply Z.leb_le; lia).
      reflexivity.
    + replace (1080 <=? h) with false by (symmetry; apply Z.leb_gt; lia).
      replace (720 <=? h) with false by (symmetry; apply Z.leb_gt; lia).
      replace (576 <=? h) with false by (symmetry; apply Z.leb_gt; lia).
      reflexivity.
  - intros w h ->. split; [reflexivity|]. unfold Scorer.height_score.
    destruct (1080 <=? h); [auto|].
    destruct (720 <=? h); [auto|].
    destruct (576 <=? h); auto.
  - intros ->. reflexivity.
Qed.

Lemma resolution_component_steps_witness :
  Scorer.resolution_score cached_blank = (3 # 10)%Q.
Proof.
  destruct (resolution_component_steps cached_blank) as [H _].
  destruct (H 0 0) as (_ & _ & _ & H4).
  - reflexivity.
  - apply H4. lia.
Defined.

(** C6, the claim as stated fails on the [0x0] sentinel: it is read as
    width 0 and height 0 and falls in the lowest step, 0.3, not 0. *)
Lemma zero_resolution_counterexample :
  Scorer.resolution cached_blank = Some (Py.PStr "0x0") /\
  Scorer.resolution_score cached_blank = (3 # 10)%Q /\
  ~ (Scorer.resolution_score cached_blank == 0)%Q.
Proof.
  split; [reflexivity|]. split; [reflexivity|].
  vm_compute. discriminate.
Qed.

(** ** The sentinel of the command-line sorter *)

(** [score_streams] gives the score -1 to a stream without bitrate, but
    critical errors cost 25 points each: the measured stream with three of
    them scores -74.8 and ranks below the unmeasured one. *)
Lemma sorter_sentinel_is_not_a_floor :
  Sorter.row_score 55 sorter_channel sorter_unmeasured = (-1)%Q /\
  (Sorter.row_score 55 sorter_channel sorter_broken
     < Sorter.row_score 55 sorter_channel sorter_unmeasured)%Q.
Proof. split; [reflexivity|]. vm_compute. reflexivity. Qed.

(** * Further properties *)

(** ** The update tracker: caps, round trips, frames *)

Section DictMoreFacts.
Context {V : Type}.
Implicit Types (d : list (Z * V)) (k : Z) (v : V).

Lemma dict_get_in d k v : PyDict.get k d = Some v -> In (k, v) d.
Proof.
  induction d as [|[k' v'] d IH]; simpl; [discriminate|].
  destruct (Z.eqb k k') eqn:E.
  - apply Z.eqb_eq in E. intros [= ->]. left. now subst.
  - intros H. right. auto.
Qed.

Lemma dict_get_none d k : PyDict.get k d = None -> ~ In k (map fst d).
Proof.
  induction d as [|[k' v'] d IH]; simpl; [tauto|].
  destruct (Z.eqb k k') eqn:E; [discriminate|].
  apply Z.eqb_neq in E. intros H [Hk|Hk]; [congruence|]. now apply IH.
Qed.

Lemma dict_in_get d k v :
  List.NoDup (map fst d) -> In (k, v) d -> PyDict.get k d = Some v.
Proof.
  induction d as [|[k' v'] d IH]; simpl; intros Hnd Hin; [destruct Hin|].
  inversion Hnd as [|? ? Hk Hnd']; subst.
  destruct Hin as [[= -> ->]|Hin].
  - now rewrite Z.eqb_refl.
  - destruct (Z.eqb k k') eqn:E; [|auto].
    apply Z.eqb_eq in E. subst k'. exfalso. apply Hk.
    apply in_map_iff. exists (k, v). auto.
Qed.

Lemma dict_set_keys d k v :
  map fst (PyDict.set k v d) =
  match PyDict.get k d with
  | Some _ => map fst d
  | None => (map fst d ++ [k])%list
  end.
Proof.
  induction d as [|[k' v'] d IH]; simpl; [reflexivity|].
  destruct (Z.eqb k k') eqn:E; simpl; [reflexivity|].
  rewrite IH. destruct (PyDict.get k d); reflexivity.
Qed.

Lemma dict_set_distinct d k v :
  List.NoDup (map fst d) -> List.NoDup (map fst (PyDict.set k v d)).
Proof.
  intros Hnd. rewrite dict_set_keys.
  destruct (PyDict.get k d) eqn:E; [assumption|].
  apply dict_get_none in E.
  apply (Permutation_NoDup (l := k :: map fst d)).
  - apply Permutation_cons_append.
  - now constructor.
Qed.
End DictMoreFacts.

Section TrackerMoreFacts.
Import Clock Tracker TrackerOps.

Lemma flagged_handed_out now entries : flagged (map (handed_out now) entries) = [].
Proof.
  apply flagged_none. intros e He.
  apply in_map_iff in He as [e0 [<- _]]. apply handed_out_clear.
Qed.

Lemma handed_out_keys now entries :
  map fst (map (handed_out now) entries) = map fst entries.
Proof.
  rewrite map_map. apply map_ext. intros [k i]. unfold handed_out. simpl.
  destruct (needs_check_set i); reflexivity.
Qed.

Lemma loop_without_cap m now entries acc :
  effective_cap m = None ->
  get_and_clear_loop m now entries acc =
  (map (handed_out now) entries, (acc ++ flagged entries)%list).
Proof.
  intros Hm.
  assert (Hcap : forall n, cap_reached m n = false).
  { intros n. unfold effective_cap in Hm. destruct m as [m|]; [|reflexivity].
    simpl. destruct (m =? 0); [reflexivity|discriminate]. }
  revert acc. induction entries as [|[k i] rest IH]; intros acc; simpl.
  - unfold flagged. simpl. now rewrite app_nil_r.
  - unfold handed_out at 1. simpl.
    destruct (needs_check_set i) eqn:E.
    + rewrite Hcap, IH. unfold flagged. simpl. rewrite E. simpl.
      now rewrite <- app_assoc.
    + rewrite IH. unfold flagged. simpl. now rewrite E.
Qed.

Lemma cap_reached_iff m n len :
  effective_cap (Some m) = Some n -> (1 <= len)%nat ->
  cap_reached (Some m) len = true <-> (n <= len)%nat.
Proof.
  unfold effective_cap, cap_reached. destruct (Z.eqb_spec m 0) as [->|Hm];
    [discriminate|].
  intros [= <-] Hlen. simpl. rewrite Z.leb_le. lia.
Qed.

Lemma loop_with_cap m n now entries : forall acc,
  effective_cap (Some m) = Some n -> (length acc < n)%nat ->
  let res := get_and_clear_loop (Some m) now entries acc in
  snd res = (acc ++ take (n - length acc) (flagged entries))%list /\
  flagged (fst res) = drop (n - length acc) (flagged entries) /\
  map fst (fst res) = map fst entries.
Proof.
  intros acc Hn. revert acc.
  induction entries as [|[k i] rest IH]; intros acc Hlen;
    cbn [get_and_clear_loop].
  - unfold flagged. simpl. rewrite take_nil, drop_nil, app_nil_r. auto.
  - destruct (needs_check_set i) eqn:E.
    + assert (Hf : flagged ((k, i) :: rest) = k :: flagged rest)
        by (unfold flagged; simpl; now rewrite E).
      rewrite Hf.
      destruct (cap_reached (Some m) (length (acc ++ [k]))) eqn:Hc.
      * apply (cap_reached_iff m n) in Hc; [|assumption|rewrite length_app; simpl; lia].
        rewrite length_app in Hc. simpl in Hc.
        replace (n - length acc)%nat with 1%nat by lia. simpl.
        rewrite take_0, drop_0. repeat split.
      * assert (Hlt : (length (acc ++ [k]) < n)%nat).
        { destruct (Nat.le_gt_cases n (length (acc ++ [k]))) as [Hle|Hgt]; [|assumption].
          apply (cap_reached_iff m n) in Hle; [congruence|assumption|].
          rewrite length_app. simpl. lia. }
        specialize (IH (acc ++ [k])%list Hlt).
        destruct (get_and_clear_loop (Some m) now rest (acc ++ [k])) as [rest' out].
        simpl in IH. destruct IH as (Hout & Hfl & Hk). simpl.
        rewrite length_app in Hout, Hfl, Hlt. simpl in Hout, Hfl, Hlt.
        replace (n - length acc)%nat with (S (n - (length acc + 1)))%nat by lia.
        simpl. repeat split.
        -- rewrite Hout, <- app_assoc. reflexivity.
        -- rewrite <- Hfl. unfold flagged. simpl. reflexivity.
        -- now rewrite Hk.
    + assert (Hf : flagged ((k, i) :: rest) = flagged rest)
        by (unfold flagged; simpl; now rewrite E).
      rewrite Hf. specialize (IH acc Hlen).
      destruct (get_and_clear_loop (Some m) now rest acc) as [rest' out].
      simpl in IH. destruct IH as (Hout & Hfl & Hk). simpl. repeat split.
      * assumption.
      * rewrite <- Hfl. unfold flagged. simpl. now rewrite E.
      * now rewrite Hk.
Qed.

Lemma flagged_is_needing_check u :
  get_channels_needing_check u = flagged (channels_or_empty u).
Proof. reflexivity. Qed.
End TrackerMoreFacts.

(** X1. A capped [get_and_clear_channels_needing_check] hands out a
    prefix of the flagged channels and leaves the others flagged: what it
    returns followed by what still needs a check is what needed a check
    before. The cap counts channels ([0] or [None]: no cap; a negative cap:
    one channel), and the keys of the tracker do not change. *)
Theorem capped_drain_loses_no_channel
    (now : Clock.datetime) (u : Tracker.updates) (max_channels : option Z) :
  let r := Tracker.get_and_clear_channels_needing_check now u max_channels in
  let before := Tracker.get_channels_needing_check u in
  let cap := TrackerOps.effective_cap max_channels in
  fst r = TrackerOps.capped cap before /\
  Tracker.get_channels_needing_check (snd r) = TrackerOps.beyond_cap cap before /\
  (fst r ++ Tracker.get_channels_needing_check (snd r))%list = before /\
  (forall n, cap = Some n -> (length (fst r) <= n)%nat) /\
  map fst (Tracker.channels_or_empty (snd r)) = map fst (Tracker.channels_or_empty u) /\
  Tracker.last_global_check (snd r) = Tracker.last_global_check u.
Proof.
  intros r before cap. subst r before.
  rewrite !flagged_is_needing_check.
  unfold Tracker.get_and_clear_channels_needing_check, Tracker.channels_or_empty.
  destruct u as [[entries|] lg]; simpl.
  2:{ unfold TrackerOps.capped, TrackerOps.beyond_cap.
      unfold flagged. simpl.
      destruct cap; simpl; rewrite ?take_nil, ?drop_nil; repeat split; auto;
        intros; lia. }
  destruct cap as [n|] eqn:Hcap; subst cap.
  - destruct max_channels as [m|]; [|discriminate].
    assert (Hn : (0 < n)%nat).
    { unfold TrackerOps.effective_cap in Hcap.
      destruct (m =? 0); [discriminate|]. inversion Hcap. lia. }
    pose proof (loop_with_cap m n now entries [] Hcap Hn) as H.
    destruct (Tracker.get_and_clear_loop (Some m) now entries []) as [entries' out].
    simpl in H. rewrite Nat.sub_0_r in H. destruct H as (Hout & Hfl & Hk).
    simpl. rewrite Hout, Hfl. repeat split; auto.
    + apply take_drop.
    + intros n' [= <-]. rewrite length_take. lia.
  - rewrite loop_without_cap by assumption. simpl.
    rewrite flagged_handed_out, handed_out_keys, app_nil_r. repeat split; auto.
    intros n [=].
Qed.

Section TrackerStateFacts.
Import Clock Tracker TrackerOps.

Lemma flagged_in c entries :
  In c (flagged entries) <->
  exists i, In (c, i) entries /\ needs_check_set i = true.
Proof.
  unfold flagged. rewrite in_map_iff. split.
  - intros [[k i] [<- Hin]]. apply filter_In in Hin as [Hin Hf]. eauto.
  - intros [i [Hin Hf]]. exists (c, i). split; [reflexivity|].
    apply filter_In. auto.
Qed.

Lemma flagged_distinct entries :
  List.NoDup (map fst entries) -> List.NoDup (flagged entries).
Proof.
  unfold flagged. induction entries as [|[k i] rest IH]; simpl; intros Hnd;
    [constructor|].
  inversion Hnd as [|? ? Hk Hnd']; subst.
  destruct (needs_check_set i); simpl; [|auto].
  constructor; [|auto].
  intros Hin. apply Hk. apply in_map_iff in Hin as [[k' i'] [Hk' Hin]].
  simpl in Hk'. subst k'. apply filter_In in Hin as [Hin _].
  apply in_map_iff. exists (k, i'). auto.
Qed.

Lemma mark_loop_distinct ts counts ids : forall chans,
  List.NoDup (map fst chans) ->
  List.NoDup (map fst (mark_loop ts counts ids chans)).
Proof.
  induction ids as [|c rest IH]; intros chans Hnd; simpl; [assumption|].
  apply IH. now apply dict_set_distinct.
Qed.


Lemma uncapped_drain_returns_flagged now u :
  fst (get_and_clear_channels_needing_check now u None) =
  flagged (channels_or_empty u).
Proof.
  unfold get_and_clear_channels_needing_check, channels_or_empty.
  destruct (channels u) as [entries|]; [|reflexivity].
  now rewrite get_and_clear_loop_uncapped.
Qed.
End TrackerStateFacts.

(** X2. Marking then draining: whatever the list of ids passed to
    [mark_channels_updated] (repetitions included), an uncapped
    [get_and_clear_channels_needing_check] made afterwards returns every
    marked channel, returns no channel twice, and returns nothing but the
    marked channels and those that were already waiting for a check. *)
Theorem marked_channels_drain_once
    (now now' : Clock.datetime) (u : Tracker.updates) (channel_ids : list Z)
    (ts : option Clock.datetime) (counts : option (gmap Z Z)) :
  TrackerOps.distinct_keys u ->
  let u1 := Tracker.mark_channels_updated now u channel_ids ts counts in
  let out := fst (Tracker.get_and_clear_channels_needing_check now' u1 None) in
  NoDup out /\
  (forall c, In c channel_ids -> In c out) /\
  (forall c, In c out ->
     In c channel_ids \/ In c (Tracker.get_channels_needing_check u)) /\
  TrackerOps.distinct_keys u1.
Proof.
  intros Hnd u1 out.
  assert (Hnd1 : TrackerOps.distinct_keys u1).
  { unfold TrackerOps.distinct_keys, u1, Tracker.mark_channels_updated,
      Tracker.with_channels, Tracker.channels_or_empty at 1. simpl.
    apply NoDup_ListNoDup. apply mark_loop_distinct. now apply NoDup_ListNoDup. }
  assert (Hout : out = flagged (Tracker.channels_or_empty u1)).
  { unfold out.
    pose proof (uncapped_drain_returns_flagged now' u1) as H. exact H. }
  rewrite Hout. repeat split.
  - apply NoDup_ListNoDup. apply flagged_distinct. now apply NoDup_ListNoDup.
  - intros c Hc. apply flagged_in.
    unfold u1, Tracker.mark_channels_updated, Tracker.with_channels,
      Tracker.channels_or_empty at 1. simpl.
    eexists. split.
    + apply dict_get_in. now apply mark_loop_marked.
    + rewrite updated_record_shape. reflexivity.
  - intros c Hc. destruct (in_dec Z.eq_dec c channel_ids) as [Hin|Hnin];
      [now left|right].
    apply flagged_in in Hc as [i [Hi Hf]].
    apply dict_in_get in Hi; [|apply NoDup_ListNoDup; exact Hnd1].
    unfold u1, Tracker.mark_channels_updated, Tracker.with_channels,
      Tracker.channels_or_empty at 1 in Hi. simpl in Hi.
    rewrite mark_loop_other in Hi by assumption.
    apply flagged_in. exists i. split; [now apply dict_get_in|assumption].
  - exact Hnd1.
Qed.

Lemma marked_channels_drain_once_witness :
  let out :=
    fst (Tracker.get_and_clear_channels_needing_check noon
           (Tracker.mark_channels_updated early sample_updates [42; 42] None None)
           None) in
  NoDup out /\ In 42 out.
Proof.
  destruct (marked_channels_drain_once early noon sample_updates [42; 42] None None)
    as (Hnd & Hin & _).
  - unfold TrackerOps.distinct_keys. apply NoDup_ListNoDup. simpl.
    repeat constructor; simpl; intuition lia.
  - split; [exact Hnd|]. apply Hin. simpl. auto.
Defined.

(** X3. [mark_channel_checked] settles a channel: the checked stream ids
    it was given are what [get_checked_stream_ids] returns afterwards, the
    channel no longer needs a check, its force flag is what it was, and
    every other channel keeps its record and its place among the channels
    that need a check. *)
Theorem checked_channel_is_settled
    (now : Clock.datetime) (u : Tracker.updates) (channel_id : Z)
    (ts : option Clock.datetime) (count : option Z) (checked : list Z) :
  TrackerOps.distinct_keys u ->
  let u' := Tracker.mark_channel_checked now u channel_id ts count (Some checked) in
  Tracker.get_checked_stream_ids u' channel_id = checked /\
  ~ In channel_id (Tracker.get_channels_needing_check u') /\
  Tracker.should_force_check u' channel_id =
    Tracker.should_force_check u channel_id /\
  (forall c, c <> channel_id ->
     PyDict.get c (Tracker.channels_or_empty u') =
     PyDict.get c (Tracker.channels_or_empty u)) /\
  (forall c, c <> channel_id ->
     (In c (Tracker.get_channels_needing_check u') <->
      In c (Tracker.get_channels_needing_check u))) /\
  Tracker.last_global_check u' = Tracker.last_global_check u /\
  TrackerOps.distinct_keys u'.
Proof.
  intros Hnd u'.
  set (chans := Tracker.channels_or_empty u).
  assert (Hex : exists r,
             Tracker.channels_or_empty u' = PyDict.set channel_id r chans /\
             Tracker.needs_check r = Some false /\
             Tracker.checked_stream_ids r = Some checked /\
             Tracker.force_check r =
               match PyDict.get channel_id chans with
               | Some old => Tracker.force_check old | None => None end).
  { unfold u', Tracker.mark_channel_checked. fold chans.
    destruct (PyDict.get channel_id chans) as [old|]; eexists; split;
      try reflexivity; destruct count; simpl; auto. }
  destruct Hex as (r & Hu' & Hneeds & Hchecked & Hforce).
  assert (Hget : PyDict.get channel_id (Tracker.channels_or_empty u') = Some r)
    by (rewrite Hu'; apply dict_get_set_eq).
  assert (Hother : forall c, c <> channel_id ->
            PyDict.get c (Tracker.channels_or_empty u') = PyDict.get c chans).
  { intros c Hc. rewrite Hu'. apply dict_get_set_ne. congruence. }
  assert (Hnd' : TrackerOps.distinct_keys u').
  { unfold TrackerOps.distinct_keys. rewrite Hu'. apply NoDup_ListNoDup.
    apply dict_set_distinct. now apply NoDup_ListNoDup. }
  repeat split.
  - unfold Tracker.get_checked_stream_ids. now rewrite Hget, Hchecked.
  - rewrite flagged_is_needing_check. intros Hin.
    apply flagged_in in Hin as [i [Hi Hf]].
    apply dict_in_get in Hi; [|apply NoDup_ListNoDup; exact Hnd'].
    rewrite Hget in Hi. inversion Hi; subst i.
    unfold Tracker.needs_check_set in Hf. rewrite Hneeds in Hf. discriminate.
  - unfold Tracker.should_force_check. rewrite Hget, Hforce. fold chans.
    destruct (PyDict.get channel_id chans); reflexivity.
  - exact Hother.
  - rewrite !flagged_is_needing_check, !flagged_in. intros [i [Hi Hf]].
    exists i. split; [|assumption]. apply dict_get_in.
    rewrite <- Hother by assumption.
    apply dict_in_get; [apply NoDup_ListNoDup; exact Hnd'|assumption].
  - rewrite !flagged_is_needing_check, !flagged_in. intros [i [Hi Hf]].
    exists i. split; [|assumption]. apply dict_get_in.
    rewrite Hother by assumption.
    apply dict_in_get; [apply NoDup_ListNoDup; exact Hnd|assumption].
  - unfold u', Tracker.mark_channel_checked.
    destruct (PyDict.get channel_id (Tracker.channels_or_empty u)); reflexivity.
  - exact Hnd'.
Qed.

Lemma checked_channel_is_settled_witness :
  Tracker.get_checked_stream_ids
    (Tracker.mark_channel_checked noon sample_updates 5 None (Some 3) (Some [1; 2; 3]))
    5 = [1; 2; 3].
Proof.
  destruct (checked_channel_is_settled noon sample_updates 5 None (Some 3) [1; 2; 3])
    as (H & _).
  - unfold TrackerOps.distinct_keys. apply NoDup_ListNoDup. simpl.
    repeat constructor; simpl; intuition lia.
  - exact H.
Defined.


(** ** The check queue: order, counts, the single worker *)

Section QueueMoreFacts.
Import CheckQueue CheckQueueOps.

Lemma in_sync_init n : in_sync (init n).
Proof.
  unfold in_sync. simpl. repeat split; try (intros; lia); try set_solver.
  constructor.
Qed.

Lemma add_channel_cases q c p :
  (fst (add_channel q c p) = false /\ snd (add_channel q c p) = q) \/
  (fst (add_channel q c p) = true /\
   (c ∉ queued q) /\ (c ∉ in_progress q) /\ (c ∉ completed q) /\
   full q = false /\
   queue (snd (add_channel q c p)) = (queue q ++ [(p, c)])%list /\
   queued (snd (add_channel q c p)) = queued q ∪ {[c]} /\
   in_progress (snd (add_channel q c p)) = in_progress q /\
   completed (snd (add_channel q c p)) = completed q /\
   failed (snd (add_channel q c p)) = failed q /\
   max_size (snd (add_channel q c p)) = max_size q /\
   total_queued (stats (snd (add_channel q c p))) = total_queued (stats q) + 1 /\
   queue_size (stats (snd (add_channel q c p))) = Z.of_nat (length (queue q)) + 1 /\
   current_channel (stats (snd (add_channel q c p))) = current_channel (stats q)).
Proof.
  unfold add_channel.
  destruct (bool_decide (c ∉ queued q) && bool_decide (c ∉ in_progress q) &&
            bool_decide (c ∉ completed q)) eqn:Hcond; [|left; auto].
  apply andb_prop in Hcond as [Hcond H3]. apply andb_prop in Hcond as [H1 H2].
  apply bool_decide_eq_true in H1, H2, H3.
  destruct (full q) eqn:Hfull; [left; auto|]. right. simpl.
  rewrite length_app. simpl. repeat split; auto. lia.
Qed.

Lemma in_sync_add_channel q c p : in_sync q -> in_sync (snd (add_channel q c p)).
Proof.
  intros Hq.
  destruct (add_channel_cases q c p) as [[_ ->]|
    (_ & Hc & _ & _ & Hfull & Hbuf & Hqd & _ & _ & _ & Hmax & _ & Hsize & _)];
    [assumption|].
  destruct Hq as (Hnd & Hiff & Hbound & Hstat).
  unfold in_sync. rewrite Hbuf, Hqd, Hmax, Hsize, map_app, length_app. simpl.
  repeat split.
  - apply NoDup_app. split; [assumption|]. split; [|apply NoDup_singleton].
    intros x Hx Hx'. apply list_elem_of_singleton in Hx'. subst x.
    apply Hc. apply Hiff. now apply list_elem_of_In.
  - intros Hx. apply in_or_app. apply elem_of_union in Hx as [Hx|Hx].
    + left. now apply Hiff.
    + right. apply elem_of_singleton in Hx. subst. now left.
  - intros Hx. apply in_app_or in Hx as [Hx|[->|[]]]; [|set_solver].
    apply Hiff in Hx. set_solver.
  - intros Hpos. unfold full in Hfull.
    apply andb_false_iff in Hfull as [Hf|Hf].
    + apply Z.ltb_ge in Hf. lia.
    + apply Z.leb_gt in Hf. lia.
  - lia.
Qed.

Lemma in_sync_add_channels cs : forall q p,
  in_sync q -> in_sync (snd (add_channels q cs p)).
Proof.
  induction cs as [|c rest IH]; intros q p Hq; simpl; [assumption|].
  pose proof (in_sync_add_channel q c p Hq) as H1.
  destruct (add_channel q c p) as [ok q1]. simpl in H1.
  specialize (IH q1 p H1).
  destruct (add_channels q1 rest p) as [added q2]. assumption.
Qed.

Lemma in_sync_get_next_channel q : in_sync q -> in_sync (snd (get_next_channel q)).
Proof.
  intros Hq. unfold get_next_channel.
  destruct (queue q) as [|[p c] buf] eqn:Hbuf; simpl; [assumption|].
  destruct Hq as (Hnd & Hiff & Hbound & Hstat). rewrite Hbuf in *.
  simpl in *. apply NoDup_cons in Hnd as [Hc Hnd].
  unfold in_sync. simpl. repeat split; try assumption.
  - intros Hx. apply elem_of_difference in Hx as [Hx Hne].
    apply Hiff in Hx as [<-|Hx]; [|assumption]. set_solver.
  - intros Hx. apply elem_of_difference. split.
    + apply Hiff. now right.
    + intros Heq. apply elem_of_singleton in Heq. subst.
      apply Hc. now apply list_elem_of_In.
  - intros Hpos. specialize (Hbound Hpos). lia.
Qed.

Lemma in_sync_frame q q' :
  queue q' = queue q -> queued q' = queued q -> max_size q' = max_size q ->
  queue_size (stats q') = queue_size (stats q) ->
  in_sync q -> in_sync q'.
Proof.
  unfold in_sync. intros -> -> -> ->. auto.
Qed.

Lemma in_sync_step q o : in_sync q -> in_sync (step q o).
Proof.
  intros Hq. destruct o; simpl.
  - now apply in_sync_add_channel.
  - now apply in_sync_add_channels.
  - unfold remove_from_completed. case_bool_decide; simpl; [|assumption].
    eapply in_sync_frame; [..|exact Hq]; reflexivity.
  - now apply in_sync_get_next_channel.
  - eapply in_sync_frame; [..|exact Hq]; reflexivity.
  - eapply in_sync_frame; [..|exact Hq]; reflexivity.
Qed.

Lemma add_channels_max_size cs : forall q p,
  max_size (snd (add_channels q cs p)) = max_size q.
Proof.
  induction cs as [|c rest IH]; intros q p; simpl; [reflexivity|].
  destruct (add_channel_cases q c p)
    as [[_ H]|(_ & _ & _ & _ & _ & _ & _ & _ & _ & _ & H & _)];
    destruct (add_channel q c p) as [ok q1]; simpl in H;
    specialize (IH q1 p); destruct (add_channels q1 rest p) as [added q2];
    simpl in *; congruence.
Qed.

Lemma step_max_size q o : max_size (step q o) = max_size q.
Proof.
  destruct o; simpl; try reflexivity.
  - destruct (add_channel_cases q channel_id priority)
      as [[_ ->]|(_ & _ & _ & _ & _ & _ & _ & _ & _ & _ & H & _)]; auto.
  - apply add_channels_max_size.
  - unfold remove_from_completed. case_bool_decide; reflexivity.
  - unfold get_next_channel. destruct (queue q) as [|[p c] buf]; reflexivity.
Qed.

Lemma run_max_size ops : forall q, max_size (run q ops) = max_size q.
Proof.
  unfold run. induction ops as [|o rest IH]; intros q; simpl; [reflexivity|].
  rewrite IH. apply step_max_size.
Qed.
End QueueMoreFacts.

(** X5. Whatever calls are made on a [StreamCheckQueue], in whatever
    order: the buffer holds no channel twice, the [queued] set is exactly
    the set of buffered channels, a positive [max_size] bounds the buffer,
    and [stats['queue_size']] is the length of the buffer. *)
Theorem queue_buffer_and_set_agree (bound : Z) (ops : list CheckQueue.op) :
  let q := CheckQueue.run (CheckQueue.init bound) ops in
  NoDup (map snd (CheckQueue.queue q)) /\
  (forall c, c ∈ CheckQueue.queued q <-> In c (map snd (CheckQueue.queue q))) /\
  (0 < bound -> Z.of_nat (length (CheckQueue.queue q)) <= bound) /\
  CheckQueue.queue_size (CheckQueue.stats q) = Z.of_nat (length (CheckQueue.queue q)) /\
  CheckQueueOps.st_queued (CheckQueueOps.get_status q) =
    CheckQueueOps.st_queue_size (CheckQueueOps.get_status q).
Proof.
  intros q.
  assert (Hs : CheckQueueOps.in_sync q).
  { unfold q, CheckQueue.run. generalize (in_sync_init bound).
    generalize (CheckQueue.init bound). induction ops as [|o rest IH]; intros q0 H0;
      simpl; [assumption|]. apply IH. now apply in_sync_step. }
  destruct Hs as (Hnd & Hiff & Hbound & Hstat).
  unfold q in Hbound. rewrite run_max_size in Hbound. simpl in Hbound.
  repeat split; try assumption; try apply Hiff.
  unfold CheckQueueOps.get_status. simpl. f_equal.
  rewrite <- (length_map snd (CheckQueue.queue q)).
  apply NoDup_ListNoDup in Hnd.
  assert (Hperm : elements (CheckQueue.queued q) ≡ₚ map snd (CheckQueue.queue q)).
  { apply NoDup_Permutation.
    - apply NoDup_elements.
    - now apply NoDup_ListNoDup.
    - intros x. rewrite elem_of_elements, Hiff. symmetry. apply list_elem_of_In. }
  unfold size, set_size. simpl. now rewrite Hperm.
Qed.

Section QueueOrderFacts.
Import CheckQueue CheckQueueOps.

Lemma get_next_channel_cases q :
  (queue q = [] /\ get_next_channel q = (None, q)) \/
  (exists p c buf,
     queue q = (p, c) :: buf /\
     fst (get_next_channel q) = Some c /\
     queue (snd (get_next_channel q)) = buf /\
     queued (snd (get_next_channel q)) = queued q ∖ {[c]} /\
     in_progress (snd (get_next_channel q)) = in_progress q ∪ {[c]} /\
     completed (snd (get_next_channel q)) = completed q /\
     failed (snd (get_next_channel q)) = failed q /\
     max_size (snd (get_next_channel q)) = max_size q /\
     current_channel (stats (snd (get_next_channel q))) = Some c).
Proof.
  unfold get_next_channel. destruct (queue q) as [|[p c] buf]; [left; auto|].
  right. exists p, c, buf. simpl. repeat split; reflexivity.
Qed.

Lemma drain_buffer n : forall q,
  length (queue q) = n ->
  fst (drain n q) = map snd (queue q) /\
  queue (snd (drain n q)) = [] /\
  in_progress (snd (drain n q)) =
    in_progress q ∪ list_to_set (map snd (queue q)).
Proof.
  induction n as [|n IH]; intros q Hlen.
  - destruct (queue q) eqn:Hq; [|discriminate]. simpl. rewrite Hq.
    repeat split; auto. simpl. set_solver.
  - destruct (get_next_channel_cases q) as [[Hq _]|
      (p & c & buf & Hq & Hc & Hbuf & _ & Hip & _)];
      rewrite Hq in Hlen; [discriminate|].
    cbn [drain]. destruct (get_next_channel q) as [o q1]. simpl in *. subst o.
    destruct (IH q1) as (H1 & H2 & H3); [rewrite Hbuf; lia|].
    destruct (drain n q1) as [cs q2]. simpl in *.
    rewrite Hq. simpl. repeat split.
    + rewrite H1, Hbuf. reflexivity.
    + assumption.
    + rewrite H3, Hip, Hbuf. set_solver.
Qed.

Lemma add_each_appends entries : forall q,
  in_progress q = ∅ -> completed q = ∅ ->
  (forall c, c ∈ queued q <-> In c (map snd (queue q))) ->
  NoDup (map fst entries) ->
  (forall c, In c (map fst entries) -> ~ In c (map snd (queue q))) ->
  (max_size q <= 0 \/
   Z.of_nat (length (queue q)) + Z.of_nat (length entries) <= max_size q) ->
  queue (add_each q entries) =
    (queue q ++ map (fun e => (snd e, fst e)) entries)%list /\
  in_progress (add_each q entries) = ∅ /\ completed (add_each q entries) = ∅.
Proof.
  induction entries as [|[c p] rest IH]; intros q Hip Hco Hiff Hnd Hfresh Hcap.
  - simpl. rewrite app_nil_r. auto.
  - unfold add_each in *. simpl in *. apply NoDup_cons in Hnd as [Hc Hnd].
    destruct (add_channel_cases q c p) as [[Hfalse _]|
      (_ & _ & _ & _ & _ & Hbuf & Hqd & Hip' & Hco' & _ & Hmax & _)].
    + exfalso. unfold add_channel in Hfalse.
      assert (Hq : c ∉ queued q).
      { intros Hin. apply Hiff in Hin. apply (Hfresh c); auto. }
      rewrite (bool_decide_eq_true_2 _ Hq) in Hfalse.
      rewrite Hip, Hco in Hfalse.
      rewrite !bool_decide_eq_true_2 in Hfalse by set_solver. simpl in Hfalse.
      assert (Hfull : full q = false).
      { unfold full. apply andb_false_iff.
        destruct Hcap as [Hle|Hle]; [left; apply Z.ltb_ge; lia|].
        right. apply Z.leb_gt. lia. }
      rewrite Hfull in Hfalse. discriminate.
    + destruct (IH (snd (add_channel q c p))) as (H1 & H2 & H3).
      * congruence.
      * congruence.
      * intros x. rewrite Hqd, Hbuf, map_app. simpl. rewrite in_app_iff.
        rewrite elem_of_union, elem_of_singleton, Hiff. simpl. intuition.
      * assumption.
      * intros x Hx. rewrite Hbuf, map_app, in_app_iff. simpl.
        intros [Hx'|[<-|[]]].
        -- apply (Hfresh x); auto.
        -- apply Hc. now apply list_elem_of_In.
      * rewrite Hmax, Hbuf, length_app. simpl. lia.
      * rewrite H1, Hbuf, <- app_assoc. simpl. auto.
Qed.

Lemma add_channels_counts cs : forall q p,
  let r := add_channels q cs p in
  fst r = Z.of_nat (size (queued (snd r))) - Z.of_nat (size (queued q)) /\
  0 <= fst r <= Z.of_nat (length cs) /\
  queued q ⊆ queued (snd r) /\
  (forall c, c ∈ queued (snd r) -> c ∈ queued q \/ In c cs) /\
  in_progress (snd r) = in_progress q /\ completed (snd r) = completed q /\
  total_queued (stats (snd r)) = total_queued (stats q) + fst r.
Proof.
  induction cs as [|c rest IH]; intros q p; simpl.
  - repeat split; try lia; auto.
  - pose proof (add_channel_cases q c p) as Hcases.
    destruct (add_channel q c p) as [ok q1]. simpl in Hcases.
    specialize (IH q1 p). destruct (add_channels q1 rest p) as [added q2].
    simpl in *. destruct IH as (I1 & I2 & I3 & I4 & I5 & I6 & I7).
    destruct Hcases as [[-> ->]|
      (-> & Hc & _ & _ & _ & _ & Hqd & Hip & Hco & _ & _ & Htot & _)].
    + repeat split; try lia; auto. intros x Hx. destruct (I4 x Hx); auto.
    + assert (Hsz : size (queued q1) = S (size (queued q))).
      { rewrite Hqd, size_union by set_solver. rewrite size_singleton. lia. }
      repeat split; try lia; try congruence.
      * set_solver.
      * intros x Hx. destruct (I4 x Hx) as [Hx'|Hx']; [|auto].
        rewrite Hqd in Hx'. apply elem_of_union in Hx' as [Hx'|Hx']; [auto|].
        apply elem_of_singleton in Hx'. auto.
Qed.
End QueueOrderFacts.

(** X6. First in, first out: channels admitted one by one to a fresh
    queue with room for them come out of [get_next_channel] in the order
    in which they were added; the priority they were added with plays no
    part. *)
Theorem channels_leave_in_arrival_order (bound : Z) (entries : list (Z * Z)) :
  NoDup (map fst entries) ->
  (bound <= 0 \/ Z.of_nat (length entries) <= bound) ->
  let q := CheckQueueOps.add_each (CheckQueue.init bound) entries in
  let r := CheckQueueOps.drain (length entries) q in
  fst r = map fst entries /\
  CheckQueue.queue (snd r) = [] /\
  CheckQueue.in_progress (snd r) = list_to_set (map fst entries).
Proof.
  intros Hnd Hcap q r.
  destruct (add_each_appends entries (CheckQueue.init bound)) as (Hbuf & Hip & _);
    simpl; auto; try set_solver; try lia.
  fold q in Hbuf, Hip. simpl in Hbuf.
  assert (Hids : map snd (CheckQueue.queue q) = map fst entries).
  { rewrite Hbuf, map_map. reflexivity. }
  destruct (drain_buffer (length entries) q) as (H1 & H2 & H3).
  { now rewrite Hbuf, length_map. }
  fold r in H1, H2, H3. rewrite Hids in H1, H3. rewrite Hip in H3.
  repeat split; auto. rewrite H3. set_solver.
Qed.

Lemma channels_leave_in_arrival_order_witness :
  fst (CheckQueueOps.drain 3
         (CheckQueueOps.add_each (CheckQueue.init 1000) [(7, 10); (3, 0); (9, 5)]))
  = [7; 3; 9].
Proof.
  destruct (channels_leave_in_arrival_order 1000 [(7, 10); (3, 0); (9, 5)])
    as (H & _).
  - simpl. apply NoDup_ListNoDup. repeat constructor; simpl; intuition lia.
  - right. simpl. lia.
  - exact H.
Defined.

(** X7. [add_channels] returns the number of channels it admitted: the
    [queued] set grows by exactly that many channels, all of them from the
    list given, [total_queued] grows by the same number, and the other two
    sets are left alone. *)
Theorem add_channels_returns_admitted_count
    (q : CheckQueue.t) (channel_ids : list Z) (priority : Z) :
  let r := CheckQueue.add_channels q channel_ids priority in
  fst r = Z.of_nat (size (CheckQueue.queued (snd r)))
          - Z.of_nat (size (CheckQueue.queued q)) /\
  0 <= fst r <= Z.of_nat (length channel_ids) /\
  CheckQueue.queued q ⊆ CheckQueue.queued (snd r) /\
  (forall c, c ∈ CheckQueue.queued (snd r) ->
             c ∈ CheckQueue.queued q \/ In c channel_ids) /\
  CheckQueue.in_progress (snd r) = CheckQueue.in_progress q /\
  CheckQueue.completed (snd r) = CheckQueue.completed q /\
  CheckQueue.total_queued (CheckQueue.stats (snd r)) =
    CheckQueue.total_queued (CheckQueue.stats q) + fst r.
Proof. apply add_channels_counts. Qed.

Section WorkerFacts.
Import CheckQueue CheckQueueOps.

Lemma single_worker_inv ops : forall q cur,
  queue_inv q -> in_progress q = holds cur ->
  current_channel (stats q) = cur ->
  single_worker q cur ops ->
  queue_inv (run q ops) /\
  in_progress (run q ops) = holds (held_after q cur ops) /\
  current_channel (stats (run q ops)) = held_after q cur ops.
Proof.
  induction ops as [|o rest IH]; intros q cur Hq Hip Hcur Hops; [simpl; auto|].
  assert (Hother : forall o', o = o' ->
            in_progress (step q o') = in_progress q ->
            current_channel (stats (step q o')) = current_channel (stats q) ->
            queue_inv (step q o') ->
            single_worker (step q o') cur rest ->
            queue_inv (run q (o :: rest)) /\
            in_progress (run q (o :: rest)) = holds (held_after (step q o') cur rest) /\
            current_channel (stats (run q (o :: rest))) = held_after (step q o') cur rest).
  { intros o' -> H1 H2 H3 H4. apply IH; auto; congruence. }
  destruct o as [c p|cs p|c| |c|c e now]; simpl in Hops |- *.
  - apply (Hother _ eq_refl); auto; simpl.
    + destruct (add_channel_cases q c p) as [[_ ->]|H]; intuition congruence.
    + destruct (add_channel_cases q c p) as [[_ ->]|H]; intuition congruence.
    + now apply queue_inv_add_channel.
  - apply (Hother _ eq_refl); auto; simpl.
    + apply add_channels_counts.
    + clear. revert q. induction cs as [|c cs IHc]; intros q; simpl; [reflexivity|].
      pose proof (add_channel_cases q c p) as H.
      destruct (add_channel q c p) as [ok q1]. simpl in H.
      specialize (IHc q1). destruct (add_channels q1 cs p). simpl in *.
      rewrite IHc. destruct H as [[_ ->]|H]; intuition congruence.
    + now apply queue_inv_add_channels.
  - apply (Hother _ eq_refl); auto; simpl.
    + unfold remove_from_completed. case_bool_decide; reflexivity.
    + unfold remove_from_completed. case_bool_decide; reflexivity.
    + now apply queue_inv_remove_from_completed.
  - destruct Hops as [-> Hrest]. apply IH; auto.
    + now apply queue_inv_get_next_channel.
    + destruct (get_next_channel_cases q) as [[_ ->]|
        (p & c & buf & _ & -> & _ & _ & -> & _)]; simpl; [assumption|].
      rewrite Hip. simpl. set_solver.
    + destruct (get_next_channel_cases q) as [[_ ->]|
        (p & c & buf & _ & -> & _ & _ & _ & _ & _ & _ & ->)]; simpl; auto.
  - destruct Hops as [-> Hrest].
    assert (Hc : c ∉ queued q).
    { destruct Hq as (_ & _ & Hd & _). simpl in Hip.
      intros Hin. apply (Hd c Hin). rewrite Hip. set_solver. }
    apply IH; auto.
    + now apply queue_inv_mark_completed.
    + simpl in *. rewrite Hip. set_solver.
    + simpl. rewrite Hcur. simpl. now rewrite Z.eqb_refl.
  - destruct Hops as [-> Hrest]. apply IH; auto.
    + now apply queue_inv_mark_failed.
    + simpl in *. rewrite Hip. set_solver.
    + simpl. rewrite Hcur. simpl. now rewrite Z.eqb_refl.
Qed.
End WorkerFacts.

(** X8. One worker: when the worker takes a channel only while it holds
    none and completes or fails only the channel it holds, then, however
    its calls are interleaved with [add_channel], [add_channels] and
    [remove_from_completed] calls of others, no channel is in two of the
    three sets, [in_progress] holds exactly the channel the worker is
    checking (nothing when it is idle), and [stats['current_channel']]
    names that channel. *)
Theorem single_worker_keeps_queue_consistent
    (bound : Z) (ops : list CheckQueue.op) :
  CheckQueueOps.single_worker (CheckQueue.init bound) None ops ->
  let q := CheckQueue.run (CheckQueue.init bound) ops in
  let held := CheckQueueOps.held_after (CheckQueue.init bound) None ops in
  CheckQueue.exclusive q /\
  CheckQueue.in_progress q = match held with Some c => {[c]} | None => ∅ end /\
  CheckQueue.current_channel (CheckQueue.stats q) = held /\
  (size (CheckQueue.in_progress q) <= 1)%nat.
Proof.
  intros Hops q held.
  destruct (single_worker_inv ops (CheckQueue.init bound) None) as (Hq & Hip & Hcur);
    auto using queue_inv_init.
  fold q in Hq, Hip, Hcur. fold held in Hip, Hcur.
  destruct Hq as (_ & _ & Hex). repeat split; try assumption; try apply Hex.
  rewrite Hip. destruct held as [c|]; unfold CheckQueueOps.holds.
  - pose proof (size_singleton (C := gset Z) c). lia.
  - pose proof (size_empty (C := gset Z)). lia.
Qed.

Lemma single_worker_keeps_queue_consistent_witness :
  CheckQueue.exclusive (CheckQueue.run (CheckQueue.init 1000) sample_ops) /\
  CheckQueue.in_progress (CheckQueue.run (CheckQueue.init 1000) sample_ops) = ∅.
Proof.
  destruct (single_worker_keeps_queue_consistent 1000 sample_ops) as (H1 & H2 & _).
  - vm_compute. repeat split; reflexivity.
  - split; [exact H1|]. exact H2.
Defined.

(** X9. Retrying: once [get_next_channel] has handed out a channel, a
    [mark_failed] leaves it free to be queued again at once (only a full
    buffer can refuse it) and keeps the failure on record; after a
    [mark_completed] the queue refuses the channel until
    [remove_from_completed] has released it. *)
Theorem failed_channel_can_be_requeued
    (q : CheckQueue.t) (c p : Z) (e : string) (now : Clock.datetime) :
  queue_inv q ->
  fst (CheckQueue.get_next_channel q) = Some c ->
  let q1 := snd (CheckQueue.get_next_channel q) in
  let failed := CheckQueue.mark_failed now q1 c e in
  let done := CheckQueue.mark_completed q1 c in
  fst (CheckQueue.add_channel q1 c p) = false /\
  fst (CheckQueue.add_channel failed c p) = negb (CheckQueue.full q1) /\
  CheckQueue.failed (snd (CheckQueue.add_channel failed c p)) !! c = Some (e, now) /\
  fst (CheckQueue.add_channel done c p) = false /\
  fst (CheckQueue.add_channel (snd (CheckQueue.remove_from_completed done c)) c p)
    = negb (CheckQueue.full q1).
Proof.
  intros Hq Hnext q1 failed done.
  pose proof (queue_inv_get_next_channel q Hq) as Hq1. fold q1 in Hq1.
  destruct (get_next_channel_cases q) as [[_ Hnone]|
    (p0 & c0 & buf & Hbuf & Hc0 & Hbuf1 & Hqd & Hip & Hco & _)].
  { rewrite Hnone in Hnext. discriminate. }
  rewrite Hnext in Hc0. inversion Hc0; subst c0. fold q1 in Hbuf1, Hqd, Hip, Hco.
  destruct Hq as (Hnd & Hsub & Hd1 & Hd2 & Hd3).
  assert (Hcq : c ∈ CheckQueue.queued q).
  { apply Hsub. rewrite Hbuf. now left. }
  assert (Hn1 : c ∉ CheckQueue.queued q1) by (rewrite Hqd; set_solver).
  assert (Hn2 : c ∉ CheckQueue.completed q1) by (rewrite Hco; set_solver).
  assert (Hi1 : c ∈ CheckQueue.in_progress q1) by (rewrite Hip; set_solver).
  unfold CheckQueue.add_channel. simpl.
  rewrite !(bool_decide_eq_true_2 _ Hn1).
  rewrite (bool_decide_eq_false_2 (c ∉ CheckQueue.in_progress q1)) by tauto.
  rewrite (bool_decide_eq_true_2 (c ∉ CheckQueue.in_progress q1 ∖ {[c]}))
    by set_solver.
  rewrite (bool_decide_eq_true_2 _ Hn2).
  rewrite (bool_decide_eq_false_2 (c ∉ CheckQueue.completed q1 ∪ {[c]}))
    by set_solver.
  unfold CheckQueue.remove_from_completed. simpl.
  rewrite (bool_decide_eq_true_2 (c ∈ CheckQueue.completed q1 ∪ {[c]}))
    by set_solver.
  simpl. rewrite !(bool_decide_eq_true_2 _ Hn1).
  rewrite (bool_decide_eq_true_2 (c ∉ CheckQueue.in_progress q1 ∖ {[c]}))
    by set_solver.
  rewrite (bool_decide_eq_true_2 (c ∉ (CheckQueue.completed q1 ∪ {[c]}) ∖ {[c]}))
    by set_solver.
  simpl. unfold CheckQueue.full. simpl.
  destruct ((0 <? CheckQueue.max_size q1) &&
            (CheckQueue.max_size q1 <=? Z.of_nat (length (CheckQueue.queue q1))));
    simpl; repeat split; auto; apply lookup_insert_eq.
Qed.

Lemma failed_channel_can_be_requeued_witness :
  let q := snd (CheckQueue.add_channel (CheckQueue.init 1000) 7 10) in
  let q1 := snd (CheckQueue.get_next_channel q) in
  fst (CheckQueue.add_channel (CheckQueue.mark_failed noon q1 7 "timeout") 7 0)
    = true.
Proof.
  intros q q1.
  destruct (failed_channel_can_be_requeued q 7 0 "timeout" noon) as (_ & H & _).
  - apply (queue_inv_add_channel (CheckQueue.init 1000) 7 10), queue_inv_init.
  - reflexivity.
  - exact H.
Defined.
